(** * notebooks/data_tools.py: helper functions for TAP-exported time series

    A shallow embedding of [src/notebooks/data_tools.py] and the properties
    of its functions.

    Conventions of the embedding
    - Python integers are [Z]; Python lists and tuples are [list]; a [dict]
      with string keys is a [gmap string _]; an [OrderedDict] built from a
      list of pairs is that list of pairs.
    - A call that can raise returns a [result]: [Ok v] or [Raise e].
    - numpy's float64 results ([mean], [std]) are idealised as real numbers,
      with [NaN] kept apart.
    - A calendar date is its proleptic Gregorian ordinal (day 1 is
      0001-01-01), as [datetime.toordinal] gives it; time of day is left out.
    - Machine numbers keep their bounds: numpy's int64 cells and arithmetic,
      the C integers of [datetime]'s arguments, the float of a true
      division, and pandas' timestamps (64-bit nanoseconds) raise or wrap
      as they do in the libraries.
    - A call into pandas whose outcome is not described here (a [freq] that
      is not a whole number of days, a range beyond the 64-bit arithmetic)
      has the outcome [NotModelled], about which nothing is stated. *)

From Stdlib Require Import ZArith List Lia Bool Permutation Sorted.
From Stdlib Require Import Reals Lra.
From stdpp Require Import gmap strings list.

Local Open Scope Z_scope.

(** ** Python values and exceptions *)

Module Py.

(** The exception classes the module can meet. [OutOfBoundsDatetime] is
    pandas' error for a date outside its timestamps, a subclass of
    [ValueError]. [NotModelled] is no exception: it marks a call whose
    outcome in pandas this development does not describe, so that nothing is
    stated about it. *)
Inductive exn : Type :=
| KeyError
| IndexError
| ValueError
| TypeError
| OverflowError
| OutOfBoundsDatetime
| NotModelled.

#[global] Instance exn_eq_dec : EqDecision exn.
Proof. solve_decision. Defined.

Inductive result (A : Type) : Type :=
| Ok (a : A)
| Raise (e : exn).
Arguments Ok {A} a.
Arguments Raise {A} e.

Definition bind {A B} (r : result A) (k : A -> result B) : result B :=
  match r with
  | Ok a => k a
  | Raise e => Raise e
  end.

(** [isinstance(e, cls)] *)
Definition exn_isinstance (e cls : exn) : bool :=
  match e, cls with
  | NotModelled, _ => false
  | OutOfBoundsDatetime, ValueError => true
  | _, _ => bool_decide (e = cls)
  end.

(** [try: body  except e0: handler] *)
Definition try_except {A} (body : result A) (e0 : exn) (handler : result A)
  : result A :=
  match body with
  | Ok a => Ok a
  | Raise e => if exn_isinstance e e0 then handler else Raise e
  end.

(** [seq[i]] for a sequence of length [len]: a negative index counts from
    the end, and an index outside [-len, len) raises [IndexError]. *)
Definition norm_index (len : nat) (i : Z) : result nat :=
  if (0 <=? i) && (i <? Z.of_nat len) then Ok (Z.to_nat i)
  else if (- Z.of_nat len <=? i) && (i <? 0) then Ok (Z.to_nat (Z.of_nat len + i))
  else Raise IndexError.

Definition getitem {A} (l : list A) (i : Z) : result A :=
  bind (norm_index (length l) i) (fun n =>
    match l !! n with
    | Some x => Ok x
    | None => Raise IndexError
    end).

(** [d[k]] on a dict. *)
Definition dict_get {A} (d : gmap string A) (k : string) : result A :=
  match d !! k with
  | Some v => Ok v
  | None => Raise KeyError
  end.

(** The 64-bit integers of numpy ([np.int] is the platform's C long, 64 bits
    here) and the C [int] of CPython's argument parsing. *)
Definition INT64_MIN : Z := - 2 ^ 63.
Definition INT64_MAX : Z := 2 ^ 63 - 1.

Definition in_int64 (z : Z) : bool := (INT64_MIN <=? z) && (z <=? INT64_MAX).

(** int64 arithmetic wraps around. *)
Definition wrap64 (z : Z) : Z := (z + 2 ^ 63) mod 2 ^ 64 - 2 ^ 63.

Definition fits_c_int (z : Z) : bool := (- 2 ^ 31 <=? z) && (z <=? 2 ^ 31 - 1).

(** [a / b] on integers is the float nearest to the quotient, and raises
    [OverflowError] ("integer division result too large for a float") when
    that is not finite: from the midpoint between the largest float and
    [2 ^ 1024] on. *)
Definition FLOAT_OVERFLOW : Z := 2 ^ 1024 - 2 ^ 970.

Definition truediv_overflows (a b : Z) : bool :=
  Z.abs b * FLOAT_OVERFLOW <=? Z.abs a.

(** [int(a / b)] on integers, when the division does not overflow: true
    division, then truncation toward zero. While the quotient is below
    [2 ^ 49] the rounding of the float never reaches the next integer and
    this is the truncated quotient; above, the float may be off by rounding,
    and either number is far beyond any index of a grid. *)
Definition int_truediv (a b : Z) : Z := Z.quot a b.

End Py.
Export Py.

Notation "'let*' x ':=' c1 'in' c2" := (Py.bind c1 (fun x => c2))
  (at level 10, x name, c1 at level 100, c2 at level 200).

(** ** [assemble] *)

(** A 2-D integer array, a list of rows. *)
Abbreviation grid := (list (list Z)).

(** [np.zeros(shape=(r, c), dtype=np.int)] *)
Definition zeros (r c : nat) : grid := replicate r (replicate c 0).

(** One element of [timeseries]:
    [((chip_x, chip_y, pixel_x, pixel_y), {band: [value, ...]})]. *)
Abbreviation chip_record := ((Z * Z * Z * Z) * gmap string (list Z))%type.

(** [g[row][col] = v] on a numpy array of 64-bit integers: each index is
    normalised on its own axis, and then a value that does not fit raises
    [OverflowError] ("Python int too large to convert to C long"). *)
Definition grid_setitem (g : grid) (row col v : Z) : result grid :=
  let* r := norm_index (length g) row in
  match g !! r with
  | None => Raise IndexError
  | Some line =>
      let* c := norm_index (length line) col in
      if in_int64 v then Ok (<[r := <[c := v]> line]> g)
      else Raise OverflowError
  end.

(** [g[row][col]] *)
Definition grid_getitem (g : grid) (row col : Z) : result Z :=
  let* line := getitem g row in getitem line col.

Definition col_of (t : chip_record) : Z :=
  let '((chip_coord_x, _, coord_x, _), _) := t in
  int_truediv (coord_x - chip_coord_x) 30.

Definition row_of (t : chip_record) : Z :=
  let '((_, chip_coord_y, _, coord_y), _) := t in
  int_truediv (chip_coord_y - coord_y) 30.

(** [col = int((coord_x - chip_coord_x) / 30)] and
    [row = int((chip_coord_y - coord_y) / 30)] as the loop evaluates them:
    the division may overflow. *)
Definition col_checked (t : chip_record) : result Z :=
  let '((chip_coord_x, _, coord_x, _), _) := t in
  if truediv_overflows (coord_x - chip_coord_x) 30 then Raise OverflowError
  else Ok (int_truediv (coord_x - chip_coord_x) 30).

Definition row_checked (t : chip_record) : result Z :=
  let '((_, chip_coord_y, _, coord_y), _) := t in
  if truediv_overflows (chip_coord_y - coord_y) 30 then Raise OverflowError
  else Ok (int_truediv (chip_coord_y - coord_y) 30).

(** The inner loop [for b in bands: out[b][row][col] = t[1][b][ind]]; the
    right-hand side is evaluated before the target. *)
Fixpoint assemble_bands (t : chip_record) (ind row col : Z) (bands : list string)
    (out : gmap string grid) : result (gmap string grid) :=
  match bands with
  | [] => Ok out
  | b :: bs =>
      let* series := dict_get (snd t) b in
      let* v := getitem series ind in
      let* g := dict_get out b in
      let* g' := grid_setitem g row col v in
      assemble_bands t ind row col bs (<[b := g']> out)
  end.

(** The outer loop [for t in timeseries]. *)
Fixpoint assemble_loop (timeseries : list chip_record) (ind : Z)
    (bands : list string) (out : gmap string grid) : result (gmap string grid) :=
  match timeseries with
  | [] => Ok out
  | t :: ts =>
      let* col := col_checked t in
      let* row := row_checked t in
      let* out' := assemble_bands t ind row col bands out in
      assemble_loop ts ind bands out'
  end.

(** [{b: np.zeros(shape=(100, 100), dtype=np.int) for b in bands}] *)
Definition assemble_init (bands : list string) : gmap string grid :=
  foldl (fun out b => <[b := zeros 100 100]> out) ∅ bands.

Definition assemble (timeseries : list chip_record) (ind : Z)
    (bands : list string) : result (gmap string grid) :=
  assemble_loop timeseries ind bands (assemble_init bands).

(** ** Calendar dates, after CPython's [datetime] *)

Module Calendar.

Definition MINYEAR : Z := 1.
Definition MAXYEAR : Z := 9999.

Definition DAYS_IN_MONTH : list Z :=
  [-1; 31; 28; 31; 30; 31; 30; 31; 31; 30; 31; 30; 31].

Definition DAYS_BEFORE_MONTH : list Z :=
  [-1; 0; 31; 59; 90; 120; 151; 181; 212; 243; 273; 304; 334].

Definition is_leap (year : Z) : bool :=
  (year mod 4 =? 0) && (negb (year mod 100 =? 0) || (year mod 400 =? 0)).

Definition days_before_year (year : Z) : Z :=
  let y := year - 1 in
  y * 365 + y / 4 - y / 100 + y / 400.

Definition days_in_month (year month : Z) : Z :=
  if (month =? 2) && is_leap year then 29
  else nth (Z.to_nat month) DAYS_IN_MONTH 0.

Definition days_before_month (year month : Z) : Z :=
  nth (Z.to_nat month) DAYS_BEFORE_MONTH 0
  + (if (2 <? month) && is_leap year then 1 else 0).

Definition ymd2ord (year month day : Z) : Z :=
  days_before_year year + days_before_month year month + day.

Definition check_date_fields (year month day : Z) : bool :=
  (MINYEAR <=? year) && (year <=? MAXYEAR)
  && (1 <=? month) && (month <=? 12)
  && (1 <=? day) && (day <=? days_in_month year month).

(** [dt.datetime(year, month, day)], as its ordinal: the constructor first
    reads its arguments as C integers, raising [OverflowError] for one that
    does not fit, and then raises [ValueError] on a date that does not
    exist. *)
Definition datetime (year month day : Z) : result Z :=
  if fits_c_int year && fits_c_int month && fits_c_int day then
    if check_date_fields year month day then Ok (ymd2ord year month day)
    else Raise ValueError
  else Raise OverflowError.

Definition DI400Y : Z := 146097.
Definition DI100Y : Z := 36524.
Definition DI4Y : Z := 1461.

(** The year of [_ord2ymd]: [x.timetuple().tm_year] of the date with
    ordinal [n]. *)
Definition ord2year (n : Z) : Z :=
  let n := n - 1 in
  let n400 := n / DI400Y in
  let n := n mod DI400Y in
  let year := n400 * 400 + 1 in
  let n100 := n / DI100Y in
  let n := n mod DI100Y in
  let n4 := n / DI4Y in
  let n := n mod DI4Y in
  let n1 := n / 365 in
  let year := year + n100 * 100 + n4 * 4 + n1 in
  if (n1 =? 4) || (n100 =? 4) then year - 1 else year.

End Calendar.

(** ** Data frames, after pandas *)

Module Frame.

(** A row carries its index label and its cells, one per column. *)
Record row : Type := mkrow { label : Z; cells : list Z }.

Record DataFrame : Type := mkdf { columns : list string; rows : list row }.

Fixpoint column_pos (cols : list string) (field : string) : option nat :=
  match cols with
  | [] => None
  | c :: cs =>
      if String.eqb c field then Some 0%nat
      else option_map S (column_pos cs field)
  end.

Definition cell (j : nat) (r : row) : Z := nth j (cells r) 0.

(** [df[field]]: the column as a sequence of values, [KeyError] when the
    frame has no such column. *)
Definition getcol (df : DataFrame) (field : string) : result (list Z) :=
  match column_pos (columns df) field with
  | None => Raise KeyError
  | Some j => Ok (map (cell j) (rows df))
  end.

(** [series >= x], [series <= x], [a & b], [~a], [series.isin(vals)] *)
Definition series_ge (s : list Z) (x : Z) : list bool := map (fun v => x <=? v) s.
Definition series_le (s : list Z) (x : Z) : list bool := map (fun v => v <=? x) s.
Definition series_and (a b : list bool) : list bool := zip_with andb a b.
Definition series_not (a : list bool) : list bool := map negb a.
Definition isin (s : list Z) (vals : list Z) : list bool :=
  map (fun v => existsb (Z.eqb v) vals) s.

(** [df[mask]] with a boolean series: the rows at which the mask holds,
    with their labels. *)
Fixpoint select (rs : list row) (m : list bool) : list row :=
  match rs, m with
  | r :: rs', b :: m' => if b then r :: select rs' m' else select rs' m'
  | _, _ => []
  end.

Definition bool_index (df : DataFrame) (m : list bool) : DataFrame :=
  mkdf (columns df) (select (rows df) m).

Fixpoint relabel (i : Z) (rs : list row) : list row :=
  match rs with
  | [] => []
  | r :: rs' => mkrow i (cells r) :: relabel (i + 1) rs'
  end.

(** [df.reset_index(drop=True)]: labels become 0, 1, 2, ... *)
Definition reset_index (df : DataFrame) : DataFrame :=
  mkdf (columns df) (relabel 0 (rows df)).

(** Sorting by one key. Equal keys keep their order here; pandas' default
    sort does not promise that. *)
Fixpoint insert_by (key : row -> Z) (r : row) (l : list row) : list row :=
  match l with
  | [] => [r]
  | x :: l' => if key r <=? key x then r :: l else x :: insert_by key r l'
  end.

Definition sort_asc (key : row -> Z) (l : list row) : list row :=
  foldr (insert_by key) [] l.

(** pandas sorts in descending order by reversing, sorting and reversing. *)
Definition sort_desc (key : row -> Z) (l : list row) : list row :=
  rev (sort_asc key (rev l)).

(** What a caller may pass for [axis]. *)
Inductive axis_arg : Type :=
| AxisInt (n : Z)
| AxisStr (s : string)
| AxisBool (b : bool).

Section SortValues.

(** The axis number pandas reads from a [bool]. It is not documented and
    differs between releases (a [ValueError] "No axis named True", or
    [True] read as 1 and [False] as 0, or a [TypeError] where [axis] is
    keyword-only), so it is left open here. *)
Variable bool_axis : bool -> result nat.

Definition get_axis_number (axis : axis_arg) : result nat :=
  match axis with
  | AxisInt 0 => Ok 0%nat
  | AxisInt 1 => Ok 1%nat
  | AxisInt _ => Raise ValueError
  | AxisStr s =>
      if String.eqb s "index" || String.eqb s "rows" then Ok 0%nat
      else if String.eqb s "columns" then Ok 1%nat
      else Raise ValueError
  | AxisBool b => bool_axis b
  end.

(** [df.sort_values(by, axis, ascending)], whose signature is
    [sort_values(by, axis=0, ascending=True, ...)]. Along axis 0 the rows
    are ordered by column [by]. Along axis 1 the columns are ordered by
    the row labelled [by]; labels are integers here and [by] is a
    string, so that lookup raises [KeyError]. *)
Definition sort_values (df : DataFrame) (by_ : string) (axis : axis_arg)
    (ascending : bool) : result DataFrame :=
  let* n := get_axis_number axis in
  match n with
  | O =>
      match column_pos (columns df) by_ with
      | None => Raise KeyError
      | Some j =>
          Ok (mkdf (columns df)
                ((if ascending then sort_asc else sort_desc) (cell j) (rows df)))
      end
  | _ => Raise KeyError
  end.

End SortValues.

(** [series.unique()]: the distinct values in order of first appearance. *)
Fixpoint unique (l : list Z) : list Z :=
  match l with
  | [] => []
  | x :: l' => x :: List.filter (fun y => negb (y =? x)) (unique l')
  end.

(** What a caller may pass for [freq]: [None], a whole number of days
    (["D"] is [FreqDays 1], ["7D"] is [FreqDays 7]), or any other frequency
    string. *)
Inductive freq_arg : Type :=
| FreqNone
| FreqDays (k : positive)
| FreqOther (alias : string).

(** The arguments of [pd.date_range] as the module passes them: [start] and
    [end] are always dates, [periods] may be [None]. *)
Record date_range_params : Type := mkparams {
  dr_start : Z;
  dr_end : Z;
  dr_periods : option Z;
  dr_freq : freq_arg
}.

(** A pandas timestamp is a signed 64-bit count of nanoseconds since
    1970-01-01, the least value being kept for "not a time": midnight is a
    timestamp from 1677-09-22 to 2262-04-11. *)
Definition NS_PER_DAY : Z := 86400000000000.
Definition EPOCH_DAY : Z := 719163.

Definition ts_value (day : Z) : Z := (day - EPOCH_DAY) * NS_PER_DAY.

Definition ts_in_bounds (day : Z) : bool :=
  (INT64_MIN <? ts_value day) && (ts_value day <=? INT64_MAX).

(** [Timestamp(date)] *)
Definition timestamp (day : Z) : result Z :=
  if ts_in_bounds day then Ok day else Raise OutOfBoundsDatetime.

(** The step of [k] days in nanoseconds has to be a 64-bit integer. *)
Definition stride_fits (k : positive) : bool :=
  Z.pos k * NS_PER_DAY <=? INT64_MAX.

(** pandas lists a range of whole days as
    [np.arange(b, e, stride, dtype=np.int64)], with
    [e = b + (end - b) // stride * stride + stride // 2 + 1]: that bound has
    to be a 64-bit integer too. *)
Definition arange_end (s e : Z) (k : positive) : Z :=
  let stride := Z.pos k * NS_PER_DAY in
  ts_value s + (ts_value e - ts_value s) / stride * stride + stride / 2 + 1.

Definition arange_fits (s e : Z) (k : positive) : bool :=
  in_int64 (arange_end s e k).

(** The days [s, s + k, s + 2k, ...] up to [e]. *)
Definition day_range (s e : Z) (k : positive) : list Z :=
  map (fun i => s + Z.of_nat i * Z.pos k)
      (seq 0 (Z.to_nat ((e - s) / Z.pos k + 1))).

(** [pd.date_range(start, end, periods, freq)] with [start] and [end]
    given. For a [freq] of whole days: "Of the four parameters: start, end,
    periods, and freq, exactly three must be specified", so a [periods]
    count is a [ValueError]; without one, [start] and [end] become
    timestamps and the days from [start] up to [end] are listed. What pandas
    does with [freq=None] (evenly spaced instants when [periods] is given),
    with another frequency string, or with a step or a bound beyond its
    64-bit arithmetic is not described here. *)
Definition pd_date_range (p : date_range_params) : result (list Z) :=
  match dr_freq p with
  | FreqDays k =>
      if stride_fits k then
        match dr_periods p with
        | Some _ => Raise ValueError
        | None =>
            let* s := timestamp (dr_start p) in
            let* e := timestamp (dr_end p) in
            if arange_fits s e k then Ok (day_range s e k)
            else Raise NotModelled
        end
      else Raise NotModelled
  | FreqNone | FreqOther _ => Raise NotModelled
  end.

End Frame.
Export Frame.

(** ** Array reductions, after numpy *)

Module Numpy.

(** A float64 result: not-a-number, or a number, idealised as a real. *)
Inductive npfloat : Type :=
| NaN
| Fin (x : R).

Definition sum_R (arr : list R) : R := fold_right Rplus 0%R arr.

Definition avg (arr : list R) : R := (sum_R arr / INR (length arr))%R.

(** [arr.mean()]: on an empty array numpy warns and returns [nan]. *)
Definition np_mean (arr : list R) : npfloat :=
  match arr with
  | [] => NaN
  | _ => Fin (avg arr)
  end.

(** [arr.max()]: on an empty array numpy raises [ValueError] ("zero-size
    array to reduction operation maximum which has no identity"). *)
Definition np_max (arr : list R) : result R :=
  match arr with
  | [] => Raise ValueError
  | x :: l => Ok (fold_left Rmax l x)
  end.

(** [arr.std()], with the default [ddof=0]:
    [sqrt(mean(abs(arr - arr.mean())**2))]. *)
Definition np_std (arr : list R) : npfloat :=
  match arr with
  | [] => NaN
  | _ =>
      let m := avg arr in
      Fin (sqrt (avg (map (fun x => Rsqr (Rabs (x - m))) arr)))
  end.

(** The running minimum of [argmin]: a later entry replaces the current
    one only when it is strictly smaller. *)
Fixpoint argmin_from (best_i : nat) (best : Z) (i : nat) (l : list Z) : nat :=
  match l with
  | [] => best_i
  | x :: l' =>
      if x <? best then argmin_from i x (S i) l'
      else argmin_from best_i best (S i) l'
  end.

(** [arr.argmin()]: [ValueError] on an empty array. *)
Definition argmin (l : list Z) : result nat :=
  match l with
  | [] => Raise ValueError
  | x :: l' => Ok (argmin_from 0 x 1 l')
  end.

End Numpy.
Export Numpy.

(** ** The functions of [data_tools.py] *)

Definition mask_values : list Z :=
  [1; 96; 112; 160; 176; 224; 352; 368; 416; 432; 480; 864; 880; 928; 944; 992].

Section Sorting.

Variable bool_axis : bool -> result nat.

(** [df.sort_values(field, ascending).reset_index(drop=True)]: the second
    positional argument of [sort_values] is [axis], and [ascending] keeps
    its default [True]. *)
Definition temporal (df : DataFrame) (ascending : bool) (field : string)
  : result DataFrame :=
  let* sorted := sort_values bool_axis df field (AxisBool ascending) true in
  Ok (reset_index sorted).

Definition sort_on (df : DataFrame) (field : string) (ascending : bool)
  : result DataFrame :=
  let* sorted := sort_values bool_axis df field (AxisBool ascending) true in
  Ok (reset_index sorted).

End Sorting.

(** [df[(df[field] >= _min) & (df[field] <= _max)].reset_index(drop=True)] *)
Definition dates (df : DataFrame) (params : Z * Z) (field : string)
  : result DataFrame :=
  let '(_min, _max) := params in
  let* lo := getcol df field in
  let* hi := getcol df field in
  Ok (reset_index (bool_index df (series_and (series_ge lo _min) (series_le hi _max)))).

(** [df['dates'].apply(lambda x: (x.timetuple()).tm_year).unique()] *)
Definition years (df : DataFrame) : result (list Z) :=
  let* col := getcol df "dates" in
  Ok (unique (map Calendar.ord2year col)).

Definition date_range (params : date_range_params) : result (list Z) :=
  pd_date_range params.

Fixpoint mapM {A B} (f : A -> result B) (l : list A) : result (list B) :=
  match l with
  | [] => Ok []
  | x :: l' =>
      let* y := f x in
      let* ys := mapM f l' in
      Ok (y :: ys)
  end.

(** One item of the comprehension in [seasons]. *)
Definition season_of (start_mon start_day end_mon end_day : Z)
    (periods : option Z) (freq : freq_arg) (y : Z) : result (Z * list Z) :=
  let* s := Calendar.datetime y start_mon start_day in
  let* e := Calendar.datetime y end_mon end_day in
  let* r := date_range (mkparams s e periods freq) in
  Ok (y, r).

Definition seasons (df : DataFrame) (start_mon start_day end_mon end_day : Z)
    (periods : option Z) (freq : freq_arg) : result (list (Z * list Z)) :=
  let* ys := years df in
  mapM (season_of start_mon start_day end_mon end_day periods freq) ys.

(** A value of the statistics record: [None] or a float. *)
Inductive pyval : Type :=
| PyNone
| PyFloat (f : npfloat).

Definition stats (arr : list R) : result (list (string * pyval)) :=
  try_except
    (let* v_min := Ok (np_mean arr) in
     let* v_max := np_max arr in
     let* v_mean := Ok (np_mean arr) in
     let* v_std := Ok (np_std arr) in
     Ok [("min", PyFloat v_min);
         ("max", PyFloat (Fin v_max));
         ("mean", PyFloat v_mean);
         ("std", PyFloat v_std)])
    ValueError
    (Ok [("min", PyNone); ("max", PyNone); ("mean", PyNone); ("std", PyNone)]).

(** [df[~df[mask_field].isin(np.array(vals))].reset_index(drop=True)] *)
Definition mask (df : DataFrame) (vals : list Z) (mask_field : string)
  : result DataFrame :=
  let* col := getcol df mask_field in
  Ok (reset_index (bool_index df (series_not (isin col vals)))).

(** [mask(df)], with the defaults [vals=mask_values] and [mask_field='qa']. *)
Definition mask_default (df : DataFrame) : result DataFrame :=
  mask df mask_values "qa".

(** [date] is the tuple [(year, month, day)]; [array] holds 64-bit
    integers, as [np.asarray] makes of integers that fit and as the ordinals
    of a table's dates are. The subtraction and [np.abs] are int64
    operations, which wrap around. *)
Definition nearest_date (array : list Z) (date : Z * Z * Z) : result nat :=
  let '(y, m, d) := date in
  let* date := Calendar.datetime y m d in
  if forallb in_int64 array then
    argmin (map (fun a => wrap64 (Z.abs (wrap64 (a - date)))) array)
  else Raise NotModelled.

(** ** The remaining functions of [data_tools.py] *)

(** [df[field].values] *)
Definition values (df : DataFrame) (field : string) : result (list Z) :=
  getcol df field.

(** [d[k]] on an [OrderedDict], kept as its list of items (keys distinct). *)
Fixpoint od_get {K V} `{EqDecision K} (d : list (K * V)) (k : K) : result V :=
  match d with
  | [] => Raise KeyError
  | (k', v) :: d' => if decide (k' = k) then Ok v else od_get d' k
  end.

(** The [params] dict of [get_seasonal_info]. The four season bounds are
    required by [seasons]; a key that may be left out is an [option], [None]
    when the dict does not have it. *)
Record season_params : Type := mkseason {
  sp_start_mon : Z;
  sp_start_day : Z;
  sp_end_mon : Z;
  sp_end_day : Z;
  sp_periods : option Z;
  sp_freq : option freq_arg;
  sp_field : option string;
  sp_vals : option (list Z);
  sp_mask_field : option string
}.

(** [seasons(df, **params)]: [freq] defaults to ["D"]. *)
Definition seasons_kw (df : DataFrame) (p : season_params)
  : result (list (Z * list Z)) :=
  seasons df (sp_start_mon p) (sp_start_day p) (sp_end_mon p) (sp_end_day p)
    (sp_periods p) (default (FreqDays 1) (sp_freq p)).

(** [mask(df, **params)]: [vals] defaults to [mask_values] and [mask_field]
    to ['qa']. *)
Definition mask_kw (df : DataFrame) (p : season_params) : result DataFrame :=
  mask df (default mask_values (sp_vals p)) (default "qa" (sp_mask_field p)).

(** [values(df, **params)]: [field] has no default, and a call without it
    is a [TypeError]. *)
Definition values_kw (df : DataFrame) (p : season_params) : result (list Z) :=
  match sp_field p with
  | Some field => values df field
  | None => Raise TypeError
  end.

(** One item of the comprehension in [get_seasonal_info]:
    [(y, stats(values(mask(dates(df, (__seasons[y][0], __seasons[y][-1])),
    **params), **params)))]. The integers of the column enter [stats] as
    numbers. *)
Definition seasonal_stats (df : DataFrame) (p : season_params)
    (__seasons : list (Z * list Z)) (y : Z)
  : result (Z * list (string * pyval)) :=
  let* season := od_get __seasons y in
  let* first := getitem season 0 in
  let* last := getitem season (-1) in
  let* sliced := dates df (first, last) "dates" in
  let* masked := mask_kw sliced p in
  let* arr := values_kw masked p in
  let* st := stats (map IZR arr) in
  Ok (y, st).

Definition get_seasonal_info (df : DataFrame) (p : season_params)
  : result (list (Z * list (string * pyval))) :=
  let* __seasons := seasons_kw df p in
  let* ys := years df in
  mapM (seasonal_stats df p __seasons) ys.

Definition is_none (v : pyval) : bool :=
  match v with
  | PyNone => true
  | PyFloat _ => false
  end.

(** [[year for year in d.keys() if d[year][field] is not None]] *)
Fixpoint plot_x (d : list (Z * list (string * pyval))) (keys : list Z)
    (field : string) : result (list Z) :=
  match keys with
  | [] => Ok []
  | year :: keys' =>
      let* record := od_get d year in
      let* v := od_get record field in
      let* rest := plot_x d keys' field in
      Ok (if is_none v then rest else year :: rest)
  end.

(** [[i[field] for k, i in d.items() if i[field] is not None]] *)
Fixpoint plot_y (items : list (Z * list (string * pyval))) (field : string)
  : result (list pyval) :=
  match items with
  | [] => Ok []
  | (k, i) :: items' =>
      let* v := od_get i field in
      let* rest := plot_y items' field in
      Ok (if is_none v then rest else v :: rest)
  end.

Definition plot_data (d : list (Z * list (string * pyval))) (field : string)
  : result (list Z * list pyval) :=
  let* xs := plot_x d (map fst d) field in
  let* ys := plot_y d field in
  Ok (xs, ys).

(** [df.dates] on a frame without that column. *)
Inductive attribute_error : Type := AttributeError.

(** [df.iloc[index]], the row at a position. *)
Definition iloc (df : DataFrame) (index : nat) : result row :=
  match rows df !! index with
  | Some r => Ok r
  | None => Raise IndexError
  end.

(** [x.toordinal()] of a timestamp of the "dates" column. A timestamp is
    kept as the ordinal of its day; a day outside the range of pandas'
    timestamps is no timestamp, and a column holding one is not described. *)
Definition toordinal (x : Z) : result Z :=
  if ts_in_bounds x then Ok x else Raise NotModelled.

(** [nearest_date(df.dates.apply(lambda x: x.toordinal()), date)], then
    [df.iloc[index]]. On a table without rows [apply] calls nothing and
    keeps the column as it is, and what follows depends on the type of that
    empty column ([UFuncTypeError] for timestamps, [ValueError] for
    objects): that case is not described. *)
Definition spectral_signature (df : DataFrame) (date : Z * Z * Z)
  : attribute_error + result row :=
  match column_pos (columns df) "dates" with
  | None => inl AttributeError
  | Some j =>
      inr (match rows df with
           | [] => Raise NotModelled
           | _ =>
               let* ordinals := mapM toordinal (map (cell j) (rows df)) in
               let* index := nearest_date ordinals date in
               iloc df index
           end)
  end.

(** ** Vocabulary of the statements *)

(** The two offsets that [assemble] divides by 30. *)
Definition x_offset (t : chip_record) : Z :=
  let '((chip_coord_x, _, coord_x, _), _) := t in coord_x - chip_coord_x.

Definition y_offset (t : chip_record) : Z :=
  let '((_, chip_coord_y, _, coord_y), _) := t in chip_coord_y - coord_y.

(** An offset on the 30-unit pitch of a 100-cell axis. *)
Definition on_pitch (d : Z) : Prop := 0 <= d <= 2970 /\ (30 | d).

Definition on_grid (t : chip_record) : Prop :=
  on_pitch (x_offset t) /\ on_pitch (y_offset t).

(** [t[1][b][ind]] evaluates, to [v]. *)
Definition reads (t : chip_record) (b : string) (ind v : Z) : Prop :=
  exists series, snd t !! b = Some series /\ getitem series ind = Ok v.

(** For every band, [t[1][b][ind]] evaluates, to a value that a cell of
    the grid can hold. *)
Definition storable (ind : Z) (bands : list string) (t : chip_record) : Prop :=
  Forall (fun b => exists v, reads t b ind v /\ in_int64 v = true) bands.

(** A grid of 100 rows of 100 cells. *)
Definition shaped (g : grid) : Prop :=
  length g = 100%nat /\ Forall (fun line => length line = 100%nat) g.

(** Every band's grid is 100 by 100, as it stays through the loops. *)
Definition all_shaped (bands : list string) (out : gmap string grid) : Prop :=
  Forall (fun b => exists g, out !! b = Some g /\ shaped g) bands.

(** The position, counted from the front of a 100-cell axis, at which an
    offset [d] lands: offsets from -29 to -1 truncate to index 0; offsets of
    -30 and below give a negative index, which counts from the end. *)
Definition landing (d : Z) : nat :=
  if 0 <=? d then Z.to_nat (d / 30)
  else if d <=? -30 then Z.to_nat (100 + Z.quot d 30)
  else 0%nat.

(** The grid that is zero except for [v] at row [r], column [c]. *)
Definition one_cell (r c : nat) (v : Z) : grid :=
  <[r := <[c := v]> (replicate 100 0)]> (zeros 100 100).

(** [g[r][c]] at positions counted from the front, [None] outside the grid. *)
Definition cell_at (g : grid) (r c : nat) : option Z :=
  match g !! r with
  | Some line => line !! c
  | None => None
  end.

Definition origin_series : list chip_record :=
  [((0, 0, 0, 0), {["B1" := [42]]})].

Definition off_pitch_series : list chip_record :=
  [((0, 0, -15, 0), {["B1" := [42]]})].

(** Two rows in increasing date order, and the same rows in decreasing
    order, relabelled. *)
Definition two_dates : DataFrame :=
  mkdf ["dates"] [mkrow 0 [1]; mkrow 1 [2]].

Definition two_dates_descending : DataFrame :=
  mkdf ["dates"] [mkrow 0 [2]; mkrow 1 [1]].

(** pandas from 1.1 to 1.5 looks a [bool] up as the integer it equals. *)
Definition bool_axis_as_int (b : bool) : result nat :=
  Ok (if b then 1%nat else 0%nat).

(** Earlier releases reject a [bool]: "No axis named True". *)
Definition bool_axis_rejected (b : bool) : result nat := Raise ValueError.

(** A table with observations in 2017, 2016 and 2017 again (ordinals of
    2017-06-01, 2016-01-15 and 2017-06-02). *)
Definition three_dates : DataFrame :=
  mkdf ["dates"; "qa"]
    [mkrow 0 [736481; 66]; mkrow 1 [735978; 96]; mkrow 2 [736482; 322]].

(** The date [(y, m, d)] exists and is one pandas can hold as a timestamp. *)
Definition season_date_ok (y m d : Z) : Prop :=
  Calendar.check_date_fields y m d = true
  /\ ts_in_bounds (Calendar.ymd2ord y m d) = true.

(** The season of year [y] is one [seasons] can list every [k] days. *)
Definition season_ok (sm sd em ed : Z) (k : positive) (y : Z) : Prop :=
  season_date_ok y sm sd /\ season_date_ok y em ed
  /\ arange_fits (Calendar.ymd2ord y sm sd) (Calendar.ymd2ord y em ed) k = true.

(** The int64 entry [a] of an array is one from which [date] is subtracted,
    and the absolute value taken, without leaving the 64-bit integers. *)
Definition subtracts_exactly (date a : Z) : Prop :=
  in_int64 a = true /\ INT64_MIN < a - date.

(** An offset whose index [int(d / 30)] a 100-cell axis accepts, from the
    front or from the end. *)
Definition in_reach (d : Z) : Prop := -3030 < d < 3000.

Definition record_in_reach (t : chip_record) : Prop :=
  in_reach (x_offset t) /\ in_reach (y_offset t).

(** Both offsets of the record are small enough for their division by 30
    to be a float. *)
Definition offsets_divide (t : chip_record) : Prop :=
  truediv_overflows (x_offset t) 30 = false
  /\ truediv_overflows (y_offset t) 30 = false.

(** The record writes at row [r], column [c], counted from the front. *)
Definition lands_on (t : chip_record) (r c : nat) : Prop :=
  norm_index 100 (row_of t) = Ok r /\ norm_index 100 (col_of t) = Ok c.

(** The last day [day_range] lists when its start is not after its end. *)
Definition last_day (s e : Z) (k : positive) : Z :=
  s + Z.pos k * ((e - s) / Z.pos k).

(** The record [stats] makes of an array. *)
Definition stats_record (arr : list R) : list (string * pyval) :=
  match arr with
  | [] => [("min", PyNone); ("max", PyNone); ("mean", PyNone); ("std", PyNone)]
  | x :: l =>
      [("min", PyFloat (Fin (avg arr)));
       ("max", PyFloat (Fin (fold_left Rmax l x)));
       ("mean", PyFloat (Fin (avg arr)));
       ("std", PyFloat (Fin (sqrt (avg (map (fun x => Rsqr (Rabs (x - avg arr))) arr)))))]
  end.

(** The values [get_seasonal_info] hands to [stats] for year [y]: those of
    column [jf] in the rows dated, in column [jd], from the start date to
    the last day listed, whose mask value, in column [jm], is allowed. *)
Definition season_values (df : DataFrame) (jd jm jf : nat) (vals : list Z)
    (sm sd em ed : Z) (k : positive) (y : Z) : list R :=
  let s := Calendar.ymd2ord y sm sd in
  let e := Calendar.ymd2ord y em ed in
  map (fun r => IZR (cell jf r))
    (filter (fun r => (cell jm r ∉ vals) /\ s <= cell jd r <= last_day s e k)
       (rows df)).

(** The points [plot_data] keeps: the items whose record has a value other
    than [None] under [field]. *)
Fixpoint kept_points (d : list (Z * list (string * pyval))) (field : string)
  : list (Z * pyval) :=
  match d with
  | [] => []
  | (year, record) :: d' =>
      match od_get record field with
      | Ok v => if is_none v then kept_points d' field
                else (year, v) :: kept_points d' field
      | Raise _ => kept_points d' field
      end
  end.

(** A date as the triple [(year, month, day)]: whether [datetime] accepts
    it, its ordinal and its year. *)
Definition date_valid (t : Z * Z * Z) : Prop :=
  let '(y, m, d) := t in Calendar.check_date_fields y m d = true.

Definition date_ordinal (t : Z * Z * Z) : Z :=
  let '(y, m, d) := t in Calendar.ymd2ord y m d.

Definition date_year (t : Z * Z * Z) : Z :=
  let '(y, _, _) := t in y.

(** What [seasons] needs of the year [y] besides the existence of the two
    dates of its season: the year is a C integer and the dates, if they
    exist, are dates pandas lists every [k] days. *)
Definition season_in_range (sm sd em ed : Z) (k : positive) (y : Z) : Prop :=
  fits_c_int y = true
  /\ (Calendar.check_date_fields y sm sd = true ->
      Calendar.check_date_fields y em ed = true ->
      season_ok sm sd em ed k y).

(** ** Proof automation *)

(** Replaces the integer comparisons of the goal that [lia] decides by their
    value. *)
Ltac settle_comparison :=
  match goal with
  | |- context [?a <=? ?b] =>
      first [ replace (a <=? b) with true by (symmetry; apply Z.leb_le; lia)
            | replace (a <=? b) with false by (symmetry; apply Z.leb_gt; lia) ]
  | |- context [?a <? ?b] =>
      first [ replace (a <? b) with true by (symmetry; apply Z.ltb_lt; lia)
            | replace (a <? b) with false by (symmetry; apply Z.ltb_ge; lia) ]
  end.

Ltac settle_comparisons := repeat settle_comparison.

(** ** Properties of [assemble] *)

Section Assemble.

Implicit Types (t : chip_record) (g : grid) (out : gmap string grid).

Lemma norm_index_landing (d : Z) :
  -3001 < d < 3000 ->
  norm_index 100 (int_truediv d 30) = Ok (landing d) /\ (landing d < 100)%nat.
Proof.
  intros Hd. unfold norm_index, int_truediv, landing.
  destruct (Z.leb_spec 0 d) as [Hpos | Hneg].
  - rewrite Z.quot_div_nonneg by lia.
    assert (0 <= d / 30 < 100) by (Z.to_euclidean_division_equations; lia).
    settle_comparisons. simpl. split; [reflexivity | lia].
  - assert (-100 <= Z.quot d 30 <= 0) by (Z.to_euclidean_division_equations; lia).
    destruct (Z.leb_spec d (-30)) as [Hfar | Hnear].
    + assert (Z.quot d 30 < 0) by (Z.to_euclidean_division_equations; lia).
      settle_comparisons. simpl. split; [reflexivity | lia].
    + assert (Z.quot d 30 = 0) as -> by (Z.to_euclidean_division_equations; lia).
      simpl. split; [reflexivity | lia].
Qed.

Lemma shaped_zeros : shaped (zeros 100 100).
Proof.
  split; [apply length_replicate |].
  apply Forall_forall. intros line Hin.
  apply elem_of_replicate in Hin as [-> _]. apply length_replicate.
Qed.

Lemma shaped_insert g (r c : nat) (line : list Z) (v : Z) :
  shaped g -> g !! r = Some line -> shaped (<[r := <[c := v]> line]> g).
Proof.
  intros [Hlen Hall] Hline. split; [by rewrite length_insert |].
  apply Forall_insert; [done |]. cbn beta. rewrite length_insert.
  by apply (Forall_lookup_1 _ _ _ _ Hall Hline).
Qed.

(** On a 100 by 100 grid a write succeeds whenever both indices normalise
    and the value is a 64-bit integer. *)
Lemma grid_setitem_shaped g (row col v : Z) (r c : nat) :
  shaped g ->
  norm_index 100 row = Ok r -> (r < 100)%nat ->
  norm_index 100 col = Ok c ->
  in_int64 v = true ->
  exists line, g !! r = Some line
    /\ grid_setitem g row col v = Ok (<[r := <[c := v]> line]> g).
Proof.
  intros [Hlen Hall] Hr Hlt Hc H64. unfold grid_setitem.
  rewrite Hlen, Hr. cbn [bind].
  destruct (lookup_lt_is_Some_2 g r) as [line Hline]; [lia |].
  exists line. split; [done |]. rewrite Hline.
  rewrite (Forall_lookup_1 _ _ _ _ Hall Hline), Hc. cbn [bind].
  by rewrite H64.
Qed.

Lemma FLOAT_OVERFLOW_large : 2 ^ 49 <= FLOAT_OVERFLOW.
Proof. apply Z.leb_le. vm_compute. reflexivity. Qed.

(** The division of an offset below [30 * 2 ^ 49] does not overflow. *)
Lemma truediv_small (d : Z) :
  Z.abs d < 30 * 2 ^ 49 -> truediv_overflows d 30 = false.
Proof.
  intros Hd. unfold truediv_overflows. apply Z.leb_gt.
  pose proof FLOAT_OVERFLOW_large. change (Z.abs 30) with 30. lia.
Qed.

Lemma on_pitch_range (d : Z) : on_pitch d -> -3001 < d < 3000.
Proof. intros [? _]. lia. Qed.

Lemma on_pitch_index (d : Z) : on_pitch d -> 0 <= int_truediv d 30 <= 99.
Proof.
  intros [Hd _]. unfold int_truediv. rewrite Z.quot_div_nonneg by lia.
  Z.to_euclidean_division_equations; lia.
Qed.

Lemma row_of_offset t : row_of t = int_truediv (y_offset t) 30.
Proof. by destruct t as [[[[? ?] ?] ?] ?]. Qed.

Lemma col_of_offset t : col_of t = int_truediv (x_offset t) 30.
Proof. by destruct t as [[[[? ?] ?] ?] ?]. Qed.

(** One turn of the outer loop. *)
Lemma assemble_loop_cons t (ts : list chip_record) (ind : Z)
    (bands : list string) out :
  assemble_loop (t :: ts) ind bands out
  = if truediv_overflows (x_offset t) 30 || truediv_overflows (y_offset t) 30
    then Raise OverflowError
    else let* out' := assemble_bands t ind (row_of t) (col_of t) bands out in
         assemble_loop ts ind bands out'.
Proof.
  destruct t as [[[[cx cy] x] y] series].
  cbn [assemble_loop col_checked row_checked x_offset y_offset row_of col_of].
  destruct (truediv_overflows (x - cx) 30); [done |].
  destruct (truediv_overflows (cy - y) 30); done.
Qed.

Lemma assemble_loop_cons_safe t (ts : list chip_record) (ind : Z)
    (bands : list string) out :
  Z.abs (x_offset t) < 30 * 2 ^ 49 -> Z.abs (y_offset t) < 30 * 2 ^ 49 ->
  assemble_loop (t :: ts) ind bands out
  = (let* out' := assemble_bands t ind (row_of t) (col_of t) bands out in
     assemble_loop ts ind bands out').
Proof.
  intros Hx Hy. by rewrite assemble_loop_cons, !truediv_small.
Qed.

Lemma all_shaped_insert bands out (b : string) g :
  all_shaped bands out -> shaped g -> all_shaped bands (<[b := g]> out).
Proof.
  intros Hall Hg. unfold all_shaped in *.
  eapply Forall_impl; [exact Hall |]. intros b' [g' [Hb' Hg']]. simpl.
  destruct (decide (b = b')) as [-> | Hne].
  - exists g. by rewrite lookup_insert_eq.
  - exists g'. by rewrite lookup_insert_ne.
Qed.

Lemma all_shaped_init bands : all_shaped bands (assemble_init bands).
Proof.
  unfold assemble_init.
  assert (forall out0, all_shaped [] out0) as Hnil by (intros; constructor).
  induction bands as [| b bands IH] using rev_ind; [apply Hnil |].
  rewrite foldl_app. simpl. unfold all_shaped. apply Forall_app. split.
  - apply all_shaped_insert; [exact IH | exact shaped_zeros].
  - constructor; [| constructor]. exists (zeros 100 100).
    split; [by rewrite lookup_insert_eq | exact shaped_zeros].
Qed.

Lemma assemble_bands_total t (ind row col : Z) (r c : nat) (todo bands : list string) out :
  norm_index 100 row = Ok r -> (r < 100)%nat ->
  norm_index 100 col = Ok c ->
  storable ind todo t -> todo ⊆ bands -> all_shaped bands out ->
  exists out', assemble_bands t ind row col todo out = Ok out'
    /\ all_shaped bands out'.
Proof.
  intros Hr Hlt Hc. revert out.
  induction todo as [| b todo IH]; intros out Hread Hsub Hout.
  - exists out. by split.
  - apply Forall_cons in Hread as [[v [[series [Hs Hv]] H64]] Hread].
    assert (b ∈ bands) as Hb by (apply Hsub; left).
    unfold all_shaped in Hout. rewrite Forall_forall in Hout.
    destruct (Hout b Hb) as [g [Hg Hshape]].
    destruct (grid_setitem_shaped g row col v r c Hshape Hr Hlt Hc H64)
      as [line [Hline Hset]].
    cbn [assemble_bands]. unfold dict_get. rewrite Hs. cbn [bind].
    rewrite Hv. cbn [bind]. rewrite Hg. cbn [bind]. rewrite Hset. cbn [bind].
    apply IH; [exact Hread | |].
    + intros x Hx. apply Hsub. by right.
    + apply all_shaped_insert; [by apply Forall_forall |].
      by apply shaped_insert.
Qed.

Lemma assemble_loop_total (ts : list chip_record) (ind : Z) (bands : list string) out :
  Forall on_grid ts -> Forall (storable ind bands) ts -> all_shaped bands out ->
  exists out', assemble_loop ts ind bands out = Ok out' /\ all_shaped bands out'.
Proof.
  revert out. induction ts as [| t ts IH]; intros out Hgrid Hread Hout.
  - exists out. by split.
  - apply Forall_cons in Hgrid as [[Hx Hy] Hgrid].
    apply Forall_cons in Hread as [Hrd Hread].
    destruct (norm_index_landing _ (on_pitch_range _ Hy)) as [Hr Hlt].
    destruct (norm_index_landing _ (on_pitch_range _ Hx)) as [Hc _].
    rewrite <- row_of_offset in Hr. rewrite <- col_of_offset in Hc.
    destruct (assemble_bands_total t ind _ _ _ _ bands bands out Hr Hlt Hc Hrd)
      as [out1 [Hstep Hout1]]; [done | exact Hout |].
    apply on_pitch_range in Hx, Hy.
    rewrite assemble_loop_cons_safe by lia.
    rewrite Hstep. cbn [bind]. by apply IH.
Qed.

(** One record, one band: the result is the zero grid with one cell set. *)
Lemma assemble_single t (ind v : Z) (b : string) :
  -3001 < x_offset t < 3000 -> -3001 < y_offset t < 3000 ->
  reads t b ind v -> in_int64 v = true ->
  assemble [t] ind [b]
  = Ok {[b := one_cell (landing (y_offset t)) (landing (x_offset t)) v]}.
Proof.
  intros Hx Hy [series [Hs Hv]] H64.
  destruct (norm_index_landing _ Hy) as [Hr Hlt].
  destruct (norm_index_landing _ Hx) as [Hc _].
  rewrite <- row_of_offset in Hr. rewrite <- col_of_offset in Hc.
  destruct (grid_setitem_shaped (zeros 100 100) _ _ v _ _ shaped_zeros Hr Hlt Hc H64)
    as [line [Hline Hset]].
  assert (line = replicate 100 0) as ->.
  { unfold zeros in Hline. apply lookup_replicate in Hline as [-> _]. done. }
  unfold assemble, assemble_init. cbn [foldl].
  rewrite assemble_loop_cons_safe by lia.
  cbn [assemble_bands]. unfold dict_get.
  rewrite Hs. cbn [bind]. rewrite Hv. cbn [bind]. rewrite lookup_insert_eq.
  cbn [bind]. rewrite Hset. cbn [bind assemble_loop].
  rewrite insert_insert_eq, insert_empty. reflexivity.
Qed.

End Assemble.

Lemma cell_at_one_cell (r0 c0 r c : nat) (v : Z) :
  (r0 < 100)%nat -> (c0 < 100)%nat ->
  cell_at (one_cell r0 c0 v) r c
  = if (r <? 100)%nat && (c <? 100)%nat
    then Some (if (r =? r0)%nat && (c =? c0)%nat then v else 0)
    else None.
Proof.
  intros Hr0 Hc0. unfold cell_at, one_cell, zeros.
  destruct (Nat.ltb_spec r 100) as [Hr | Hr]; cbn [andb].
  - destruct (Nat.eqb_spec r r0) as [-> | Hne]; cbn [andb].
    + rewrite list_lookup_insert_eq by (rewrite length_replicate; lia).
      destruct (Nat.ltb_spec c 100) as [Hc | Hc].
      * destruct (Nat.eqb_spec c c0) as [-> | Hne].
        -- apply list_lookup_insert_eq. rewrite length_replicate; lia.
        -- rewrite list_lookup_insert_ne by congruence.
           apply lookup_replicate. split; [done | lia].
      * apply lookup_ge_None. rewrite length_insert, length_replicate. lia.
    + rewrite list_lookup_insert_ne by congruence.
      rewrite (proj2 (lookup_replicate 100 (replicate 100 0) (replicate 100 0) r))
        by (split; [done | lia]).
      destruct (Nat.ltb_spec c 100) as [Hc | Hc].
      * apply lookup_replicate. split; [done | lia].
      * apply lookup_ge_None. rewrite length_replicate. lia.
  - rewrite (proj2 (lookup_ge_None _ r)); [done |].
    rewrite length_insert, length_replicate. lia.
Qed.

(** C2, as stated, fails: with chip origin (0,0) and pixel (0,0) the value 42
    is not at [grid[99][0]], which holds 0; it is at [grid[0][0]]. *)
Lemma assemble_origin_not_in_row_99 :
  exists g : grid,
    assemble origin_series 0 ["B1"] = Ok {["B1" := g]}
    /\ grid_getitem g 99 0 = Ok 0
    /\ grid_getitem g 0 0 = Ok 42.
Proof.
  exists (one_cell 0 0 42). split; [| split]; vm_compute; reflexivity.
Qed.

(** C2, amended: for the single record with chip origin (0,0) and pixel
    (0,0), band set {"B1"}, index 0 and value 42, [assemble] returns for "B1"
    the 100 by 100 grid with [grid[0][0] == 42] and every other cell 0. *)
Theorem assemble_origin_cell :
  assemble origin_series 0 ["B1"] = Ok {["B1" := one_cell 0 0 42]}
  /\ grid_getitem (one_cell 0 0 42) 0 0 = Ok 42
  /\ forall r c : nat,
       cell_at (one_cell 0 0 42) r c
       = if (r <? 100)%nat && (c <? 100)%nat
         then Some (if (r =? 0)%nat && (c =? 0)%nat then 42 else 0)
         else None.
Proof.
  split; [| split].
  - apply (assemble_single ((0, 0, 0, 0), {["B1" := [42]]}) 0 42 "B1");
      [simpl; lia | simpl; lia | | reflexivity].
    exists [42]. split; reflexivity.
  - vm_compute. reflexivity.
  - intros r c. apply cell_at_one_cell; lia.
Qed.

(** C10, as stated, fails for the negative offsets above -30: with pixel x 15
    below the chip origin the column index is [int(-0.5) = 0], not a negative
    index, and the value lands in the first column, the last one staying 0. *)
Lemma assemble_near_negative_lands_in_front :
  Forall (fun t => -3001 < x_offset t < 0 /\ col_of t = 0) off_pitch_series
  /\ exists g : grid,
       assemble off_pitch_series 0 ["B1"] = Ok {["B1" := g]}
       /\ grid_getitem g 0 0 = Ok 42
       /\ grid_getitem g 0 (-1) = Ok 0.
Proof.
  split.
  - repeat constructor.
  - exists (one_cell 0 0 42). split; [| split]; vm_compute; reflexivity.
Qed.

(** C10, amended: [assemble] checks no coordinate. (a) When every record's
    offsets [pixel_x - chip_x] and [chip_y - pixel_y] are multiples of 30 in
    [0, 2970], every row and column index is in [0, 99] and, the band values
    being readable and 64-bit integers, as the cells of the grid are, the
    call returns. (b) A record with offsets strictly between -3001 and 3000
    and such a value raises nothing: its value is written at the position
    [landing] gives for each offset. (c) For an offset from -3000 to -30
    that index is negative and the position is counted from the end,
    [100 + index]. (d) For an offset from -29 to -1 the index truncates to 0
    and the position is the first one. *)
Theorem assemble_index_safety :
  (forall (ts : list chip_record) (ind : Z) (bands : list string),
     Forall on_grid ts ->
     Forall (fun t => 0 <= row_of t <= 99 /\ 0 <= col_of t <= 99) ts
     /\ (Forall (storable ind bands) ts ->
         exists out, assemble ts ind bands = Ok out))
  /\ (forall (t : chip_record) (ind v : Z) (b : string),
        -3001 < x_offset t < 3000 -> -3001 < y_offset t < 3000 ->
        reads t b ind v -> in_int64 v = true ->
        assemble [t] ind [b]
        = Ok {[b := one_cell (landing (y_offset t)) (landing (x_offset t)) v]})
  /\ (forall d : Z, -3001 < d -> d <= -30 ->
        int_truediv d 30 < 0
        /\ Z.of_nat (landing d) = 100 + int_truediv d 30)
  /\ (forall d : Z, -30 < d < 0 ->
        int_truediv d 30 = 0 /\ landing d = 0%nat).
Proof.
  split; [| split; [| split]].
  - intros ts ind bands Hgrid. split.
    + eapply Forall_impl; [exact Hgrid |]. intros t [Hx Hy]. simpl.
      rewrite row_of_offset, col_of_offset.
      split; by apply on_pitch_index.
    + intros Hread.
      destruct (assemble_loop_total ts ind bands (assemble_init bands)
                  Hgrid Hread (all_shaped_init bands)) as [out [Hout _]].
      by exists out.
  - intros t ind v b Hx Hy Hread H64. by apply assemble_single.
  - intros d Hlo Hhi. unfold int_truediv, landing. settle_comparisons.
    split; Z.to_euclidean_division_equations; lia.
  - intros d Hd. unfold int_truediv, landing. settle_comparisons.
    split; [Z.to_euclidean_division_equations; lia | reflexivity].
Qed.

Lemma assemble_index_safety_witness :
  assemble [((0, 0, -60, 0), {["B1" := [42]]})] 0 ["B1"]
  = Ok {["B1" := one_cell 0 98 42]}.
Proof.
  apply (proj1 (proj2 assemble_index_safety)
           ((0, 0, -60, 0), {["B1" := [42]]}) 0 42 "B1").
  - simpl; lia.
  - simpl; lia.
  - exists [42]. split; reflexivity.
  - reflexivity.
Defined.

(** ** Properties of the row filters: [dates] and [mask] *)

Section RowFilters.

Implicit Types (df : DataFrame) (rs : list row) (r : row) (j : nat).

(** Selecting with a mask computed row by row is filtering. *)
Lemma select_filter (P : row -> Prop) `{!forall r, Decision (P r)}
    (p : row -> bool) rs :
  (forall r, p r = true <-> P r) ->
  select rs (map p rs) = filter P rs.
Proof.
  intros Hp. induction rs as [| r rs IH]; [done |].
  simpl. rewrite filter_cons, IH.
  destruct (p r) eqn:Hr; destruct (decide (P r)) as [HP | HP]; try done.
  - exfalso. apply HP. by apply Hp.
  - apply Hp in HP. congruence.
Qed.

Lemma series_and_map {A} (f g : A -> bool) (l : list A) :
  series_and (map f l) (map g l) = map (fun x => f x && g x) l.
Proof. unfold series_and. induction l as [| x l IH]; [done |]. simpl. by rewrite IH. Qed.

Lemma cells_relabel (i : Z) rs : map cells (relabel i rs) = map cells rs.
Proof. revert i. induction rs as [| r rs IH]; intros i; [done |]. simpl. by rewrite IH. Qed.

Lemma labels_relabel (i : Z) rs :
  map label (relabel i rs) = seqZ i (Z.of_nat (length rs)).
Proof.
  revert i. induction rs as [| r rs IH]; intros i; [done |].
  cbn [relabel map length]. rewrite IH.
  rewrite (seqZ_cons i (Z.of_nat (S (length rs)))) by lia.
  do 2 f_equal; lia.
Qed.

Lemma length_relabel (i : Z) rs : length (relabel i rs) = length rs.
Proof. revert i. induction rs as [| r rs IH]; intros i; [done |]. simpl. by rewrite IH. Qed.

(** Rows are determined by their cells once relabelled. *)
Lemma relabel_cells_eq (i : Z) rs rs' :
  map cells rs = map cells rs' -> relabel i rs = relabel i rs'.
Proof.
  revert i rs'. induction rs as [| r rs IH]; intros i [| r' rs'] Heq; try done.
  simpl in Heq. injection Heq as Hr Hrs. simpl. rewrite Hr. f_equal. by apply IH.
Qed.

(** A filter that looks at cells only does not see the labels. *)
Lemma filter_relabel_cells (P : row -> Prop) `{!forall r, Decision (P r)} (i : Z) rs :
  (forall r r', cells r = cells r' -> P r <-> P r') ->
  map cells (filter P (relabel i rs)) = map cells (filter P rs).
Proof.
  intros HP. revert i. induction rs as [| r rs IH]; intros i; [done |].
  cbn [relabel]. rewrite !filter_cons.
  assert (P (mkrow i (cells r)) <-> P r) as Hiff by (by apply HP).
  destruct (decide (P (mkrow i (cells r)))) as [H1 | H1];
    destruct (decide (P r)) as [H2 | H2]; try tauto; simpl; by rewrite IH.
Qed.

Lemma getcol_pos df (field : string) j :
  column_pos (columns df) field = Some j ->
  getcol df field = Ok (map (cell j) (rows df)).
Proof. intros H. unfold getcol. by rewrite H. Qed.

Lemma getcol_missing df (field : string) :
  column_pos (columns df) field = None -> getcol df field = Raise KeyError.
Proof. intros H. unfold getcol. by rewrite H. Qed.

(** The closed form of [dates]. *)
Lemma dates_rows df (a b : Z) (field : string) j :
  column_pos (columns df) field = Some j ->
  dates df (a, b) field
  = Ok (mkdf (columns df)
          (relabel 0 (filter (fun r => a <= cell j r <= b) (rows df)))).
Proof.
  intros Hj. unfold dates. rewrite (getcol_pos _ _ _ Hj). simpl.
  unfold reset_index, bool_index, series_ge, series_le. simpl.
  rewrite !map_map, (series_and_map (fun r => a <=? cell j r) (fun r => cell j r <=? b)).
  rewrite (select_filter (fun r => a <= cell j r <= b)); [done |].
  intros r. rewrite andb_true_iff, !Z.leb_le. tauto.
Qed.

Lemma isin_spec (v : Z) (vals : list Z) :
  existsb (Z.eqb v) vals = true <-> v ∈ vals.
Proof.
  rewrite existsb_exists. split.
  - intros [x [Hin Heq]]. apply Z.eqb_eq in Heq as ->. by apply list_elem_of_In.
  - intros Hin. exists v. split; [by apply list_elem_of_In | apply Z.eqb_refl].
Qed.

(** The closed form of [mask]. *)
Lemma mask_rows df (vals : list Z) (field : string) j :
  column_pos (columns df) field = Some j ->
  mask df vals field
  = Ok (mkdf (columns df)
          (relabel 0 (filter (fun r => cell j r ∉ vals) (rows df)))).
Proof.
  intros Hj. unfold mask. rewrite (getcol_pos _ _ _ Hj). simpl.
  unfold reset_index, bool_index, series_not, isin. simpl.
  rewrite !map_map.
  rewrite (select_filter (fun r => cell j r ∉ vals)); [done |].
  intros r. rewrite negb_true_iff, <- not_true_iff_false, isin_spec. tauto.
Qed.

End RowFilters.

Create Rewrite HintDb frame.
#[global] Hint Rewrite cells_relabel labels_relabel length_relabel : frame.

(** C6: for a table with column [field], [dates(table, (a, b), field)]
    returns exactly the rows whose value [v] in that column satisfies
    [a <= v <= b], both ends included, in their original relative order and
    relabelled from 0; it has at most as many rows as the table. *)
Theorem dates_inclusive_slice (df : DataFrame) (a b : Z) (field : string) (j : nat) :
  column_pos (columns df) field = Some j ->
  exists df',
    dates df (a, b) field = Ok df'
    /\ columns df' = columns df
    /\ map cells (rows df')
       = map cells (filter (fun r => a <= cell j r <= b) (rows df))
    /\ Forall (fun r => a <= cell j r <= b) (rows df')
    /\ map label (rows df') = seqZ 0 (Z.of_nat (length (rows df')))
    /\ (length (rows df') <= length (rows df))%nat.
Proof.
  intros Hj. eexists. split; [by apply dates_rows |]. cbn [columns rows].
  split; [done |]. split; [by autorewrite with frame |]. split; [| split].
  - apply Forall_forall. intros r Hr.
    apply list_elem_of_fmap_2 with (f := cells) in Hr.
    change (@fmap list _ _ _ cells) with (map cells) in Hr.
    rewrite cells_relabel in Hr.
    apply list_elem_of_fmap in Hr as [r' [Hcells Hr']].
    apply list_elem_of_filter in Hr' as [Hbound _].
    unfold cell in *. by rewrite Hcells.
  - by autorewrite with frame.
  - autorewrite with frame. apply length_filter.
Qed.

Lemma dates_inclusive_slice_witness :
  exists df',
    dates (mkdf ["dates"; "qa"] [mkrow 4 [5; 1]; mkrow 2 [9; 2]; mkrow 7 [7; 3]])
      (6, 9) "dates" = Ok df'
    /\ map cells (rows df') = [[9; 2]; [7; 3]]
    /\ map label (rows df') = [0; 1].
Proof.
  destruct (dates_inclusive_slice
              (mkdf ["dates"; "qa"] [mkrow 4 [5; 1]; mkrow 2 [9; 2]; mkrow 7 [7; 3]])
              6 9 "dates" 0 eq_refl)
    as [df' [Hrun [_ [Hcells [_ [Hlabels _]]]]]].
  exists df'. split; [exact Hrun |]. split; [exact Hcells |].
  injection Hrun as <-. reflexivity.
Defined.

(** C7: for a table with column [mask_field], [mask] returns exactly the rows
    whose value in that column is not among the disallowed values, equality
    being equality of integers, in their original relative order and
    relabelled from 0; the default disallowed values are the 16 QA codes of
    [mask_values], on column "qa". *)
Theorem mask_removes_disallowed :
  (forall (df : DataFrame) (vals : list Z) (mask_field : string) (j : nat),
     column_pos (columns df) mask_field = Some j ->
     exists df',
       mask df vals mask_field = Ok df'
       /\ columns df' = columns df
       /\ map cells (rows df')
          = map cells (filter (fun r => cell j r ∉ vals) (rows df))
       /\ map label (rows df') = seqZ 0 (Z.of_nat (length (rows df'))))
  /\ (forall df, mask_default df = mask df mask_values "qa")
  /\ length mask_values = 16%nat
  /\ NoDup mask_values
  /\ mask_values
     = [1; 96; 112; 160; 176; 224; 352; 368; 416; 432; 480; 864; 880; 928; 944; 992].
Proof.
  split; [| split; [| split; [| split]]]; try reflexivity.
  - intros df vals mask_field j Hj.
    eexists. split; [by apply mask_rows |]. cbn [columns rows].
    split; [done |]. split; by autorewrite with frame.
  - compute_done.
Qed.

Lemma mask_removes_disallowed_witness :
  exists df',
    mask (mkdf ["dates"; "qa"] [mkrow 4 [5; 66]; mkrow 2 [9; 96]; mkrow 7 [7; 322]])
      mask_values "qa" = Ok df'
    /\ map cells (rows df') = [[5; 66]; [7; 322]].
Proof.
  destruct (proj1 mask_removes_disallowed
              (mkdf ["dates"; "qa"] [mkrow 4 [5; 66]; mkrow 2 [9; 96]; mkrow 7 [7; 322]])
              mask_values "qa" 1%nat eq_refl)
    as [df' [Hrun [_ [Hcells _]]]].
  exists df'. split; [exact Hrun |].
  injection Hrun as <-. reflexivity.
Defined.

(** C8: [mask] is idempotent: masking the result of [mask] again, with the
    same disallowed values and field, gives the once-masked table (and a
    table without the field raises the same [KeyError] either way). *)
Theorem mask_idempotent (df : DataFrame) (vals : list Z) (mask_field : string) :
  (let* once := mask df vals mask_field in mask once vals mask_field)
  = mask df vals mask_field.
Proof.
  destruct (column_pos (columns df) mask_field) as [j |] eqn:Hj.
  - rewrite (mask_rows _ _ _ _ Hj). cbn [bind].
    rewrite (mask_rows _ _ _ j) by exact Hj. cbn [columns rows].
    do 2 f_equal. apply relabel_cells_eq.
    rewrite filter_relabel_cells by (intros r r' Hc; unfold cell; by rewrite Hc).
    f_equal. by apply list_filter_filter_l.
  - unfold mask. by rewrite (getcol_missing _ _ Hj).
Qed.

(** ** Properties of [sort_on] and [temporal] *)

Section SortOn.

Variable bool_axis : bool -> result nat.

Implicit Types (df : DataFrame) (rs : list row) (r : row) (key : row -> Z).

Lemma insert_by_perm key r rs : insert_by key r rs ≡ₚ r :: rs.
Proof.
  induction rs as [| x rs IH]; [done |]. simpl.
  destruct (key r <=? key x); [done |].
  rewrite IH. apply Permutation_swap.
Qed.

Lemma sort_asc_perm key rs : sort_asc key rs ≡ₚ rs.
Proof.
  induction rs as [| r rs IH]; [done |].
  cbn [sort_asc foldr]. fold (sort_asc key rs).
  rewrite insert_by_perm. by rewrite IH.
Qed.

Lemma insert_by_sorted key r rs :
  Sorted Z.le (map key rs) -> Sorted Z.le (map key (insert_by key r rs)).
Proof.
  induction rs as [| x rs IH]; intros Hs; [repeat constructor |].
  simpl. destruct (Z.leb_spec (key r) (key x)) as [Hle | Hgt].
  - simpl. constructor; [exact Hs | constructor; exact Hle].
  - simpl in Hs. apply Sorted_inv in Hs as [Hs Hhd]. simpl.
    constructor; [by apply IH |].
    destruct rs as [| y rs]; simpl.
    + constructor. lia.
    + destruct (Z.leb_spec (key r) (key y)); simpl; constructor; [lia |].
      by apply HdRel_inv in Hhd.
Qed.

Lemma sort_asc_sorted key rs : Sorted Z.le (map key (sort_asc key rs)).
Proof.
  induction rs as [| r rs IH]; [constructor |].
  cbn [sort_asc foldr]. fold (sort_asc key rs). by apply insert_by_sorted.
Qed.

Lemma cell_relabel (j : nat) (i : Z) rs :
  map (cell j) (relabel i rs) = map (cell j) rs.
Proof.
  revert i. induction rs as [| r rs IH]; intros i; [done |]. simpl. by rewrite IH.
Qed.

(** Whatever the flag, a call that returns has sorted the rows in ascending
    order: the flag never reaches the [ascending] parameter. *)
Lemma sort_on_returns_ascending df (field : string) (ascending : bool) df' :
  sort_on bool_axis df field ascending = Ok df' ->
  exists j,
    column_pos (columns df) field = Some j
    /\ map cells (rows df') ≡ₚ map cells (rows df)
    /\ Sorted Z.le (map (cell j) (rows df')).
Proof.
  unfold sort_on, sort_values. intros Hrun.
  destruct (get_axis_number bool_axis (AxisBool ascending)) as [[| n] | e];
    simpl in Hrun; try discriminate.
  destruct (column_pos (columns df) field) as [j |]; simpl in Hrun; [| discriminate].
  injection Hrun as <-. exists j. split; [done |]. cbn [rows reset_index].
  split.
  - rewrite cells_relabel. apply Permutation_map, sort_asc_perm.
  - rewrite cell_relabel. apply sort_asc_sorted.
Qed.

Lemma temporal_is_sort_on df (ascending : bool) (field : string) :
  temporal bool_axis df ascending field = sort_on bool_axis df field ascending.
Proof. reflexivity. Qed.

End SortOn.

(** C3 fails on the code at [ascending=False]: for the two rows dated 1 and
    2, however pandas reads a [bool] given as [axis], [sort_on] and
    [temporal] do not return the rows in descending order; the call raises
    or returns them in ascending order. Passing the flag as [ascending]
    gives the descending order the claim describes. *)
Theorem sort_on_descending_flag_lost (bool_axis : bool -> result nat) :
  sort_on bool_axis two_dates "dates" false <> Ok two_dates_descending
  /\ temporal bool_axis two_dates false "dates" <> Ok two_dates_descending
  /\ ((exists e, sort_on bool_axis two_dates "dates" false = Raise e)
      \/ sort_on bool_axis two_dates "dates" false = Ok two_dates)
  /\ (let* sorted := sort_values bool_axis two_dates "dates" (AxisInt 0) false in
      Ok (reset_index sorted)) = Ok two_dates_descending.
Proof.
  assert ((exists e, sort_on bool_axis two_dates "dates" false = Raise e)
          \/ sort_on bool_axis two_dates "dates" false = Ok two_dates) as Hcases.
  { unfold sort_on, sort_values, get_axis_number.
    destruct (bool_axis false) as [[| n] | e]; simpl.
    - right. reflexivity.
    - left. by exists KeyError.
    - left. by exists e. }
  assert (sort_on bool_axis two_dates "dates" false <> Ok two_dates_descending) as Hne.
  { destruct Hcases as [[e He] | Hasc]; [rewrite He | rewrite Hasc]; discriminate. }
  split; [exact Hne |]. split; [exact Hne |]. split; [exact Hcases |]. reflexivity.
Qed.

(** With the default [ascending=True] the flag is read as axis 1 or rejected:
    under either reading of a [bool] the call raises. *)
Lemma sort_on_default_flag_raises :
  sort_on bool_axis_as_int two_dates "dates" true = Raise KeyError
  /\ sort_on bool_axis_rejected two_dates "dates" true = Raise ValueError
  /\ sort_on bool_axis_as_int two_dates "dates" false = Ok two_dates
  /\ sort_on bool_axis_rejected two_dates "dates" false = Raise ValueError.
Proof. repeat split. Qed.
(** ** The calendar and the bounds of machine numbers *)

(** Case analysis on a month known to lie between 1 and 12. *)
Ltac each_month m :=
  let H := fresh in
  assert (m = 1 \/ m = 2 \/ m = 3 \/ m = 4 \/ m = 5 \/ m = 6 \/ m = 7 \/ m = 8
          \/ m = 9 \/ m = 10 \/ m = 11 \/ m = 12) as H by lia;
  repeat (destruct H as [-> | H]); [.. | subst m].

Section CalendarFacts.

Import Calendar.

Lemma fits_c_int_iff (z : Z) :
  fits_c_int z = true <-> -2147483648 <= z <= 2147483647.
Proof.
  unfold fits_c_int. rewrite andb_true_iff, !Z.leb_le.
  change (2 ^ 31) with 2147483648. lia.
Qed.

Lemma in_int64_iff (z : Z) :
  in_int64 z = true <-> -9223372036854775808 <= z <= 9223372036854775807.
Proof.
  unfold in_int64, INT64_MIN, INT64_MAX. rewrite andb_true_iff, !Z.leb_le.
  change (2 ^ 63) with 9223372036854775808. lia.
Qed.

Lemma check_date_fields_inv (y m d : Z) :
  check_date_fields y m d = true ->
  1 <= y <= 9999 /\ 1 <= m <= 12 /\ 1 <= d <= days_in_month y m.
Proof.
  unfold check_date_fields, MINYEAR, MAXYEAR.
  rewrite !andb_true_iff, !Z.leb_le. lia.
Qed.

Lemma days_in_month_le (y m : Z) : 1 <= m <= 12 -> days_in_month y m <= 31.
Proof.
  intros Hm. unfold days_in_month.
  each_month m; destruct (is_leap y); simpl; lia.
Qed.

(** A date that exists is one the constructor accepts. *)
Lemma datetime_valid (y m d : Z) :
  check_date_fields y m d = true -> datetime y m d = Ok (ymd2ord y m d).
Proof.
  intros Hvalid. unfold datetime. rewrite Hvalid.
  apply check_date_fields_inv in Hvalid as [Hy [Hm Hd]].
  pose proof (days_in_month_le y m Hm).
  by rewrite !(proj2 (fits_c_int_iff _)) by lia.
Qed.

(** Arguments that are C integers give a date or a [ValueError]. *)
Lemma datetime_fits (y m d : Z) :
  fits_c_int y = true -> fits_c_int m = true -> fits_c_int d = true ->
  datetime y m d
  = if check_date_fields y m d then Ok (ymd2ord y m d) else Raise ValueError.
Proof. intros Hy Hm Hd. unfold datetime. by rewrite Hy, Hm, Hd. Qed.

Lemma timestamp_in_bounds (day : Z) :
  ts_in_bounds day = true -> timestamp day = Ok day.
Proof. intros H. unfold timestamp. by rewrite H. Qed.

(** The step of one day, the default, is within pandas' arithmetic for all
    timestamps. *)
Lemma stride_fits_daily : stride_fits 1 = true.
Proof. vm_compute. reflexivity. Qed.

Lemma arange_fits_daily (s e : Z) :
  ts_in_bounds s = true -> ts_in_bounds e = true -> arange_fits s e 1 = true.
Proof.
  unfold ts_in_bounds, arange_fits, arange_end, ts_value, NS_PER_DAY, EPOCH_DAY.
  rewrite !andb_true_iff, !Z.ltb_lt, !Z.leb_le, in_int64_iff.
  unfold INT64_MIN, INT64_MAX. change (2 ^ 63) with 9223372036854775808.
  intros [Hs1 Hs2] [He1 He2].
  change (Z.pos 1 * 86400000000000) with 86400000000000.
  replace ((e - 719163) * 86400000000000 - (s - 719163) * 86400000000000)
    with ((e - s) * 86400000000000) by lia.
  rewrite Z.div_mul by lia.
  change (86400000000000 / 2) with 43200000000000. lia.
Qed.

Lemma days_before_year_succ (y : Z) :
  days_before_year (y + 1)
  = days_before_year y + (if is_leap y then 366 else 365).
Proof.
  unfold days_before_year, is_leap. cbv zeta.
  replace (y + 1 - 1) with y by lia.
  destruct (Z.eqb_spec (y mod 4) 0); destruct (Z.eqb_spec (y mod 100) 0);
    destruct (Z.eqb_spec (y mod 400) 0); cbn [andb orb negb];
    Z.to_euclidean_division_equations; lia.
Qed.

(** A date lies within its year. *)
Lemma ymd2ord_in_year (y m d : Z) :
  check_date_fields y m d = true ->
  days_before_year y < ymd2ord y m d <= days_before_year (y + 1).
Proof.
  intros Hvalid. apply check_date_fields_inv in Hvalid as [_ [Hm Hd]].
  rewrite days_before_year_succ. unfold ymd2ord, days_before_month.
  unfold days_in_month in Hd.
  each_month m; destruct (is_leap y); simpl in *; lia.
Qed.

Lemma ord2year_in_year (y n : Z) :
  1 <= y -> days_before_year y < n <= days_before_year (y + 1) -> ord2year n = y.
Proof.
  intros Hy Hn. unfold ord2year, days_before_year, DI400Y, DI100Y, DI4Y in *.
  cbv zeta. replace (y + 1 - 1) with y in Hn by lia.
  destruct (Z.eqb_spec ((n - 1) mod 146097 mod 36524 mod 1461 / 365) 4);
    destruct (Z.eqb_spec ((n - 1) mod 146097 / 36524) 4); cbn [orb];
    Z.to_euclidean_division_equations; lia.
Qed.

(** Within a year, ordinals follow the order of (month, day). *)
Lemma ymd2ord_lt (y m d m' d' : Z) :
  check_date_fields y m d = true -> check_date_fields y m' d' = true ->
  m < m' \/ (m = m' /\ d < d') ->
  ymd2ord y m d < ymd2ord y m' d'.
Proof.
  intros Hv Hv' Hlt.
  apply check_date_fields_inv in Hv as [_ [Hm Hd]].
  apply check_date_fields_inv in Hv' as [_ [Hm' Hd']].
  unfold ymd2ord, days_before_month. unfold days_in_month in Hd, Hd'.
  each_month m; each_month m'; try lia;
    destruct (is_leap y); simpl in *; lia.
Qed.

(** The ordinals of the dates [datetime] can hold. *)
Lemma ymd2ord_range (y m d : Z) :
  check_date_fields y m d = true -> 1 <= ymd2ord y m d <= 3652059.
Proof.
  intros Hvalid. pose proof (ymd2ord_in_year _ _ _ Hvalid) as Hin.
  apply check_date_fields_inv in Hvalid as [Hy _].
  unfold days_before_year in Hin. cbv zeta in Hin.
  Z.to_euclidean_division_equations; lia.
Qed.

End CalendarFacts.


(** ** Properties of [years], [date_range] and [seasons] *)

Section Seasons.

Import Calendar.

(** The year read back from an ordinal is the year it was built from, at
    both ends of every year a [datetime] can hold, and the years follow one
    another without a gap. *)
Lemma ord2year_year_ends :
  forallb (fun y => (ord2year (ymd2ord y 1 1) =? y)
                    && (ord2year (ymd2ord y 12 31) =? y)
                    && (ymd2ord (y + 1) 1 1 =? ymd2ord y 12 31 + 1))
    (seqZ MINYEAR MAXYEAR) = true.
Proof. vm_compute. reflexivity. Qed.

Lemma unique_elem (x : Z) (l : list Z) : x ∈ unique l <-> x ∈ l.
Proof.
  induction l as [| a l IH]; [done |]. simpl.
  rewrite !elem_of_cons, (list_elem_of_In (List.filter _ _)), filter_In.
  rewrite <- list_elem_of_In, IH, negb_true_iff, Z.eqb_neq.
  destruct (decide (x = a)); tauto.
Qed.

Lemma unique_NoDup (l : list Z) : NoDup (unique l).
Proof.
  induction l as [| a l IH]; [constructor |]. simpl. constructor.
  - rewrite list_elem_of_In, filter_In, negb_true_iff, Z.eqb_neq. tauto.
  - apply NoDup_ListNoDup, List.NoDup_filter, NoDup_ListNoDup, IH.
Qed.

Lemma day_range_length (s e : Z) (k : positive) :
  length (day_range s e k) = Z.to_nat ((e - s) / Z.pos k + 1).
Proof. unfold day_range. by rewrite length_map, length_seq. Qed.

Lemma day_range_lookup (s e : Z) (k : positive) (i : nat) (x : Z) :
  day_range s e k !! i = Some x ->
  x = s + Z.of_nat i * Z.pos k /\ s <= x <= e.
Proof.
  unfold day_range. intros Hi.
  change (@map nat Z) with (@fmap list _ nat Z) in Hi.
  rewrite list_lookup_fmap in Hi.
  destruct (seq 0 (Z.to_nat ((e - s) / Z.pos k + 1)) !! i) as [i' |] eqn:Hseq;
    [| discriminate].
  apply lookup_seq in Hseq as [-> Hlt]. simpl in Hi. injection Hi as <-.
  split; [done |].
  assert (Z.of_nat i <= (e - s) / Z.pos k) as Hq by lia.
  assert (Z.pos k * ((e - s) / Z.pos k) <= e - s)
    by (apply Z.mul_div_le; lia).
  nia.
Qed.

Lemma day_range_bounds (s e : Z) (k : positive) :
  Forall (fun x => s <= x <= e) (day_range s e k).
Proof.
  apply Forall_lookup. intros i x Hi. by apply day_range_lookup in Hi as [_ ?].
Qed.

Lemma day_range_increasing (s e : Z) (k : positive) :
  forall (i j : nat) (x y : Z),
    (i < j)%nat -> day_range s e k !! i = Some x -> day_range s e k !! j = Some y ->
    x < y.
Proof.
  intros i j x y Hij Hi Hj.
  apply day_range_lookup in Hi as [-> _]. apply day_range_lookup in Hj as [-> _].
  nia.
Qed.

Lemma day_range_head (s e : Z) (k : positive) :
  s <= e -> head (day_range s e k) = Some s.
Proof.
  intros Hse. unfold day_range.
  assert (0 <= (e - s) / Z.pos k) by (apply Z.div_pos; lia).
  destruct (Z.to_nat ((e - s) / Z.pos k + 1)) as [| n] eqn:Hn; [lia |].
  simpl. f_equal. lia.
Qed.

Lemma day_range_daily (s e : Z) : day_range s e 1 = seqZ s (e - s + 1).
Proof.
  unfold day_range, seqZ. rewrite Z.div_1_r.
  change (@fmap list _ nat Z) with (@map nat Z).
  apply map_ext. intros i. lia.
Qed.

Lemma day_range_daily_last (s e : Z) : s <= e -> last (day_range s e 1) = Some e.
Proof.
  intros Hse. rewrite day_range_daily, last_lookup, length_seqZ.
  rewrite lookup_seqZ. split; lia.
Qed.

Lemma mapM_ok {A B} (f : A -> result B) (g : A -> B) (l : list A) :
  Forall (fun x => f x = Ok (g x)) l -> mapM f l = Ok (map g l).
Proof.
  induction 1 as [| x l Hx _ IH]; [done |]. simpl. by rewrite Hx, IH.
Qed.

(** With a [periods] count next to [start], [end] and a [freq] of days, one
    season cannot be built: either a date does not exist or [date_range]
    refuses the four arguments, and both are [ValueError]. *)
Lemma season_of_periods_raises (sm sd em ed n : Z) (k : positive) (y : Z) :
  stride_fits k = true ->
  fits_c_int y = true ->
  fits_c_int sm = true -> fits_c_int sd = true ->
  fits_c_int em = true -> fits_c_int ed = true ->
  season_of sm sd em ed (Some n) (FreqDays k) y = Raise ValueError.
Proof.
  intros Hk Hy Hsm Hsd Hem Hed. unfold season_of.
  rewrite !datetime_fits by done.
  destruct (check_date_fields y sm sd); [| done].
  destruct (check_date_fields y em ed); [| done].
  cbn [bind]. unfold date_range, pd_date_range. cbn [dr_freq dr_periods].
  by rewrite Hk.
Qed.

Lemma season_of_range (sm sd em ed : Z) (k : positive) (y : Z) :
  stride_fits k = true -> season_ok sm sd em ed k y ->
  season_of sm sd em ed None (FreqDays k) y
  = Ok (y, day_range (ymd2ord y sm sd) (ymd2ord y em ed) k).
Proof.
  intros Hk [[Hs Hsb] [[He Heb] Hfit]]. unfold season_of.
  rewrite !datetime_valid by done. cbn [bind].
  unfold date_range, pd_date_range. cbn [dr_freq dr_periods dr_start dr_end].
  rewrite Hk, !timestamp_in_bounds by done. cbn [bind]. by rewrite Hfit.
Qed.

End Seasons.

(** C4, as stated, fails: given a periods count next to the end date, with
    the default daily [freq], the call does not succeed with the end date
    taking precedence; it raises [ValueError]. *)
Lemma seasons_with_periods_raises :
  years three_dates = Ok [2017; 2016]
  /\ seasons three_dates 6 1 9 30 (Some 10) (FreqDays 1) = Raise ValueError.
Proof. split; vm_compute; reflexivity. Qed.

(** C4, amended: (a) without a periods count (the default) and with a [freq]
    of [k] whole days (the default "D" is one day), when in every year of
    the table the start and end dates exist and are dates pandas holds as
    timestamps (1677-09-22 to 2262-04-11), [seasons] returns, for each year
    in [years(table)] in that order, the days from
    (year, start_month, start_day) up to (year, end_month, end_day), one
    every [k] days; [k] and the range have to be within pandas' 64-bit
    arithmetic, which (e) the daily default always is. (b) Those years are
    the distinct years of the "dates" column. (c) Each sequence is strictly
    increasing and within its two dates; it starts at the start date when
    that is not after the end date, and with the daily default it ends at
    the end date. (d) With a periods count next to a [freq] of whole days,
    the month and day arguments and the year being C integers, the call
    raises [ValueError] as soon as the table has a year. *)
Theorem seasons_date_ranges :
  (forall (df : DataFrame) (sm sd em ed : Z) (k : positive) (ys : list Z),
     years df = Ok ys ->
     stride_fits k = true ->
     Forall (season_ok sm sd em ed k) ys ->
     seasons df sm sd em ed None (FreqDays k)
     = Ok (map (fun y => (y, day_range (Calendar.ymd2ord y sm sd)
                               (Calendar.ymd2ord y em ed) k)) ys))
  /\ (forall (df : DataFrame) (j : nat),
        column_pos (columns df) "dates" = Some j ->
        exists ys, years df = Ok ys /\ NoDup ys
          /\ forall y, y ∈ ys <-> exists r, r ∈ rows df /\ Calendar.ord2year (cell j r) = y)
  /\ (forall (s e : Z) (k : positive),
        (forall (i j : nat) (x y : Z), (i < j)%nat ->
           day_range s e k !! i = Some x -> day_range s e k !! j = Some y -> x < y)
        /\ Forall (fun x => s <= x <= e) (day_range s e k)
        /\ (s <= e -> head (day_range s e k) = Some s)
        /\ (s <= e -> last (day_range s e 1) = Some e))
  /\ (forall (df : DataFrame) (sm sd em ed n : Z) (k : positive) (y : Z) (ys : list Z),
        years df = Ok (y :: ys) ->
        stride_fits k = true ->
        fits_c_int y = true ->
        fits_c_int sm = true -> fits_c_int sd = true ->
        fits_c_int em = true -> fits_c_int ed = true ->
        seasons df sm sd em ed (Some n) (FreqDays k) = Raise ValueError)
  /\ (stride_fits 1 = true
      /\ forall (sm sd em ed y : Z),
           season_date_ok y sm sd -> season_date_ok y em ed ->
           season_ok sm sd em ed 1 y).
Proof.
  split; [| split; [| split; [| split]]].
  - intros df sm sd em ed k ys Hys Hk Hvalid. unfold seasons. rewrite Hys.
    cbn [bind]. apply mapM_ok. eapply Forall_impl; [exact Hvalid |].
    intros y Hy. by apply season_of_range.
  - intros df j Hj. unfold years. rewrite (getcol_pos _ _ _ Hj). simpl.
    eexists. split; [reflexivity |]. split; [apply unique_NoDup |].
    intros y. rewrite unique_elem, map_map.
    change (@map row Z) with (@fmap list _ row Z).
    rewrite list_elem_of_fmap.
    split; intros [r [H1 H2]]; exists r; split; done.
  - intros s e k. split; [apply day_range_increasing |].
    split; [apply day_range_bounds |].
    split; [apply day_range_head | apply day_range_daily_last].
  - intros df sm sd em ed n k y ys Hys Hk Hy Hsm Hsd Hem Hed.
    unfold seasons. rewrite Hys. cbn [bind mapM].
    by rewrite season_of_periods_raises.
  - split; [exact stride_fits_daily |].
    intros sm sd em ed y Hs He. split; [done |]. split; [done |].
    destruct Hs as [_ Hs], He as [_ He]. by apply arange_fits_daily.
Qed.

Lemma seasons_date_ranges_witness :
  seasons three_dates 6 1 6 3 None (FreqDays 1)
  = Ok [(2017, [736481; 736482; 736483]); (2016, [736116; 736117; 736118])].
Proof.
  apply (proj1 seasons_date_ranges three_dates 6 1 6 3 1%positive [2017; 2016]).
  - reflexivity.
  - reflexivity.
  - repeat (apply List.Forall_cons || apply List.Forall_nil);
      repeat split; vm_compute; reflexivity.
Defined.

(** ** Properties of [nearest_date] *)

Section NearestDate.

Import Calendar.

(** [argmin_from] returns the running best, or the first later position that
    holds a strictly smaller value, smallest of all. *)
Lemma argmin_from_spec (l : list Z) :
  forall (best_i : nat) (best : Z) (i : nat),
    (argmin_from best_i best i l = best_i /\ Forall (fun z => best <= z) l)
    \/ (exists (k : nat) (x : Z),
          argmin_from best_i best i l = (i + k)%nat
          /\ l !! k = Some x /\ x < best
          /\ Forall (fun z => x <= z) l
          /\ forall (k' : nat) (z : Z), (k' < k)%nat -> l !! k' = Some z -> x < z).
Proof.
  induction l as [| a l IH]; intros best_i best i; [left; by split |].
  cbn [argmin_from]. destruct (Z.ltb_spec a best) as [Hlt | Hge].
  - right. destruct (IH i a (S i)) as [[Hres Hall] | [k [x [Hres [Hk [Hx [Hall Hfirst]]]]]]].
    + exists 0%nat, a. rewrite Hres.
      split; [lia |]. split; [done |]. split; [done |].
      split; [constructor; [lia | done] |]. intros k' z Hk'. lia.
    + exists (S k), x. rewrite Hres.
      split; [lia |]. split; [done |]. split; [lia |].
      split; [constructor; [lia | done] |].
      intros [| k'] z Hk' Hz; simpl in Hz.
      * injection Hz as <-. done.
      * apply (Hfirst k'); [lia | done].
  - destruct (IH best_i best (S i)) as [[Hres Hall] | [k [x [Hres [Hk [Hx [Hall Hfirst]]]]]]].
    + left. split; [done |]. by constructor.
    + right. exists (S k), x. rewrite Hres.
      split; [lia |]. split; [done |]. split; [done |].
      split; [constructor; [lia | done] |].
      intros [| k'] z Hk' Hz; simpl in Hz.
      * injection Hz as <-. lia.
      * apply (Hfirst k'); [lia | done].
Qed.

(** [argmin] of a non-empty array is the first position of its minimum. *)
Lemma argmin_first_minimum (l : list Z) :
  l <> [] ->
  exists (i : nat) (x : Z),
    argmin l = Ok i /\ l !! i = Some x
    /\ (forall (j : nat) (z : Z), l !! j = Some z -> x <= z)
    /\ (forall (j : nat) (z : Z), (j < i)%nat -> l !! j = Some z -> x < z).
Proof.
  destruct l as [| a l]; [done |]. intros _. cbn [argmin].
  destruct (argmin_from_spec l 0 a 1)
    as [[Hres Hall] | [k [x [Hres [Hk [Hx [Hall Hfirst]]]]]]].
  - exists 0%nat, a. rewrite Hres. split; [done |]. split; [done |]. split.
    + intros [| j] z Hz; simpl in Hz; [injection Hz as <-; lia |].
      by apply (Forall_lookup_1 _ _ _ _ Hall Hz).
    + intros j z Hj. lia.
  - exists (S k), x. rewrite Hres. split; [done |]. split; [done |]. split.
    + intros [| j] z Hz; simpl in Hz; [injection Hz as <-; lia |].
      by apply (Forall_lookup_1 _ _ _ _ Hall Hz).
    + intros [| j] z Hj Hz; simpl in Hz; [injection Hz as <-; lia |].
      apply (Hfirst j); [lia | done].
Qed.

Lemma wrap64_id (z : Z) : in_int64 z = true -> wrap64 z = z.
Proof.
  rewrite in_int64_iff. intros Hz. unfold wrap64.
  change (2 ^ 63) with 9223372036854775808.
  change (2 ^ 64) with 18446744073709551616.
  rewrite Z.mod_small; lia.
Qed.

(** Where the subtraction stays within int64, the distance computed is the
    absolute difference. *)
Lemma distance_exact (t a : Z) :
  1 <= t -> subtracts_exactly t a ->
  wrap64 (Z.abs (wrap64 (a - t))) = Z.abs (a - t).
Proof.
  intros Ht [Ha Hlow]. apply in_int64_iff in Ha.
  unfold INT64_MIN in Hlow. change (2 ^ 63) with 9223372036854775808 in Hlow.
  rewrite (wrap64_id (a - t)) by (apply in_int64_iff; lia).
  apply wrap64_id, in_int64_iff. lia.
Qed.

Lemma subtracts_exactly_int64 (t : Z) (array : list Z) :
  Forall (subtracts_exactly t) array -> forallb in_int64 array = true.
Proof.
  intros Hall. apply forallb_forall. intros a Ha.
  rewrite List.Forall_forall in Hall. by destruct (Hall a Ha).
Qed.

(** On an array whose subtraction stays within int64, [nearest_date] is the
    position of the first least absolute difference. *)
Lemma nearest_date_exact (array : list Z) (y m d : Z) :
  check_date_fields y m d = true ->
  Forall (subtracts_exactly (ymd2ord y m d)) array ->
  nearest_date array (y, m, d)
  = argmin (map (fun a => Z.abs (a - ymd2ord y m d)) array).
Proof.
  intros Hvalid Hall. unfold nearest_date.
  rewrite (datetime_valid _ _ _ Hvalid). cbn [bind].
  rewrite (subtracts_exactly_int64 _ _ Hall). f_equal.
  apply map_ext_Forall. eapply Forall_impl; [exact Hall |].
  intros a Ha. apply distance_exact; [| done].
  pose proof (ymd2ord_range _ _ _ Hvalid). lia.
Qed.

(** The ordinals of dates are such entries. *)
Lemma ordinal_subtracts_exactly (y m d a : Z) :
  check_date_fields y m d = true -> 1 <= a <= 3652059 ->
  subtracts_exactly (ymd2ord y m d) a.
Proof.
  intros Hvalid Ha. pose proof (ymd2ord_range _ _ _ Hvalid).
  split; [apply in_int64_iff; lia |].
  unfold INT64_MIN. change (2 ^ 63) with 9223372036854775808. lia.
Qed.

End NearestDate.

(** C9: for a non-empty int64 array and a target date that exists, where
    subtracting the target's ordinal from an entry stays within the 64-bit
    integers (as it does for every array of ordinals of dates),
    [nearest_date] returns an index of the array whose entry has the least
    absolute difference from the target's ordinal, and every entry before it
    is strictly farther, so it is the lowest such index. In particular, for
    [1, 5, 10] and the date of ordinal 6 it returns 1. *)
Theorem nearest_date_first_closest :
  (forall (array : list Z) (y m d : Z),
     array <> [] -> Calendar.check_date_fields y m d = true ->
     Forall (subtracts_exactly (Calendar.ymd2ord y m d)) array ->
     exists (i : nat) (a : Z),
       nearest_date array (y, m, d) = Ok i /\ array !! i = Some a
       /\ (forall (j : nat) (z : Z), array !! j = Some z ->
             Z.abs (a - Calendar.ymd2ord y m d) <= Z.abs (z - Calendar.ymd2ord y m d))
       /\ (forall (j : nat) (z : Z), (j < i)%nat -> array !! j = Some z ->
             Z.abs (a - Calendar.ymd2ord y m d) < Z.abs (z - Calendar.ymd2ord y m d)))
  /\ (forall (y m d a : Z),
        Calendar.check_date_fields y m d = true -> 1 <= a <= 3652059 ->
        subtracts_exactly (Calendar.ymd2ord y m d) a)
  /\ Calendar.datetime 1 1 6 = Ok 6
  /\ nearest_date [1; 5; 10] (1, 1, 6) = Ok 1%nat.
Proof.
  split; [| split; [exact ordinal_subtracts_exactly | split; reflexivity]].
  intros array y m d Hne Hvalid Hexact.
  rewrite (nearest_date_exact _ _ _ _ Hvalid Hexact).
  set (t := Calendar.ymd2ord y m d).
  set (dist := fun a : Z => Z.abs (a - t)).
  destruct (argmin_first_minimum (map dist array)) as [i [x [Hres [Hi [Hmin Hfirst]]]]].
  { destruct array; [done | discriminate]. }
  change (@map Z Z) with (@fmap list _ Z Z) in *.
  rewrite list_lookup_fmap in Hi.
  destruct (array !! i) as [a |] eqn:Ha; [| discriminate].
  simpl in Hi. injection Hi as <-.
  exists i, a. split; [exact Hres |]. split; [done |]. split.
  - intros j z Hz. apply (Hmin j). by rewrite list_lookup_fmap, Hz.
  - intros j z Hj Hz. apply (Hfirst j); [done |]. by rewrite list_lookup_fmap, Hz.
Qed.

Lemma nearest_date_first_closest_witness :
  exists (i : nat) (a : Z),
    nearest_date [4; 8; 8] (1, 1, 6) = Ok i /\ [4; 8; 8] !! i = Some a.
Proof.
  destruct (proj1 nearest_date_first_closest [4; 8; 8] 1 1 6)
    as [i [a [Hrun [Ha _]]]].
  - discriminate.
  - reflexivity.
  - repeat (apply List.Forall_cons || apply List.Forall_nil);
      split; vm_compute; reflexivity.
  - exists i, a. by split.
Defined.


(** ** Properties of [stats] *)

Section Stats.

Local Open Scope R_scope.

Lemma fold_left_Rmax_spec (l : list R) :
  forall x : R,
    In (fold_left Rmax l x) (x :: l)
    /\ forall y : R, In y (x :: l) -> y <= fold_left Rmax l x.
Proof.
  induction l as [| a l IH]; intros x.
  - simpl. split; [by left |]. intros y [-> | []]. lra.
  - cbn [fold_left]. destruct (IH (Rmax x a)) as [Hin Hub]. split.
    + destruct Hin as [Hhd | Htl].
      * rewrite <- Hhd. unfold Rmax. destruct (Rle_dec x a); simpl; tauto.
      * right. by right.
    + assert (Rmax x a <= fold_left Rmax l (Rmax x a)) as Hm by (apply Hub; by left).
      intros y [-> | [-> | Hy]].
      * pose proof (Rmax_l y a). lra.
      * pose proof (Rmax_r x y). lra.
      * apply Hub. by right.
Qed.

Lemma INR_length_pos {A} (l : list A) : l <> [] -> 0 < INR (length l).
Proof.
  destruct l as [| a l]; [done |]. intros _.
  apply lt_0_INR. simpl. lia.
Qed.

Lemma avg_mul (arr : list R) : arr <> [] -> avg arr * INR (length arr) = sum_R arr.
Proof.
  intros Hne. pose proof (INR_length_pos arr Hne). unfold avg. field. lra.
Qed.

Lemma sum_R_squares_nonneg (f : R -> R) (arr : list R) :
  0 <= sum_R (map (fun x => Rsqr (f x)) arr).
Proof.
  induction arr as [| a arr IH]; simpl; [lra |].
  pose proof (Rle_0_sqr (f a)). lra.
Qed.

Lemma squares_abs (m : R) (arr : list R) :
  map (fun x => Rsqr (Rabs (x - m))) arr = map (fun x => (x - m) * (x - m)) arr.
Proof. apply map_ext. intros x. by rewrite <- Rsqr_abs. Qed.

Lemma avg_three : avg [2; 4; 6] = 4.
Proof. unfold avg, sum_R. simpl. lra. Qed.

End Stats.

(** C1: for a non-empty array, [stats] returns the four entries "min",
    "max", "mean" and "std", where "mean" is the arithmetic mean (the sum
    over the count), "max" is an element that no element exceeds, "std" is
    the population standard deviation (the non-negative root of the mean
    squared deviation from the mean), and "min" holds the same value as
    "mean"; for [2, 4, 6] the mean is 4, the maximum 6 and "min" is 4.
    Numbers are reals here, not float64. *)
Theorem stats_nonempty :
  (forall arr : list R, arr <> [] ->
     exists mean mx sd : R,
       stats arr = Ok [("min", PyFloat (Fin mean));
                       ("max", PyFloat (Fin mx));
                       ("mean", PyFloat (Fin mean));
                       ("std", PyFloat (Fin sd))]
       /\ (mean * INR (length arr) = sum_R arr)%R
       /\ In mx arr /\ (forall x, In x arr -> (x <= mx)%R)
       /\ (0 <= sd)%R
       /\ (sd * sd * INR (length arr)
           = sum_R (map (fun x => (x - mean) * (x - mean)) arr))%R)
  /\ stats [2; 4; 6]%R
     = Ok [("min", PyFloat (Fin 4));
           ("max", PyFloat (Fin 6));
           ("mean", PyFloat (Fin 4));
           ("std", PyFloat (Fin (sqrt (8 / 3))))].
Proof.
  split.
  - intros arr Hne. destruct arr as [| a arr]; [done |].
    set (l := a :: arr) in *.
    exists (avg l), (fold_left Rmax arr a),
      (sqrt (avg (map (fun x => Rsqr (Rabs (x - avg l))) l))).
    destruct (fold_left_Rmax_spec arr a) as [Hin Hub].
    split; [reflexivity |]. split; [by apply avg_mul |].
    split; [exact Hin |]. split; [exact Hub |].
    pose proof (INR_length_pos l Hne) as Hpos.
    assert (0 <= avg (map (fun x => Rsqr (Rabs (x - avg l))) l))%R as Hvar.
    { unfold avg. apply Rmult_le_pos.
      - apply (sum_R_squares_nonneg (fun x => Rabs (x - avg l))).
      - left. apply Rinv_0_lt_compat. by rewrite length_map. }
    split; [by apply sqrt_pos |].
    rewrite (sqrt_sqrt _ Hvar), <- squares_abs.
    unfold avg at 1. rewrite length_map. field. lra.
  - unfold stats, np_mean, np_max, np_std. rewrite avg_three. cbn [bind try_except].
    assert (fold_left Rmax [4; 6] 2 = 6)%R as ->.
    { simpl. unfold Rmax. repeat destruct Rle_dec; lra. }
    assert (avg (map (fun x => Rsqr (Rabs (x - 4))) [2; 4; 6]) = 8 / 3)%R as ->.
    { rewrite squares_abs. unfold avg, sum_R. simpl. lra. }
    reflexivity.
Qed.

Lemma stats_nonempty_witness :
  exists mean mx sd : R,
    stats [1; 3]%R = Ok [("min", PyFloat (Fin mean));
                         ("max", PyFloat (Fin mx));
                         ("mean", PyFloat (Fin mean));
                         ("std", PyFloat (Fin sd))]
    /\ In mx [1; 3]%R.
Proof.
  destruct (proj1 stats_nonempty [1; 3]%R) as [mean [mx [sd [Hrun [_ [Hin _]]]]]].
  - discriminate.
  - exists mean, mx, sd. split; [exact Hrun | exact Hin].
Defined.

(** C5: on the empty array [arr.max()] raises [ValueError], which [stats]
    catches: it returns the record with "min", "max", "mean" and "std" all
    [None], and raises nothing. *)
Theorem stats_empty :
  np_max [] = Raise ValueError
  /\ stats [] = Ok [("min", PyNone); ("max", PyNone); ("mean", PyNone); ("std", PyNone)].
Proof. split; reflexivity. Qed.

(** ** Further properties: the calendar and [seasons] *)

Section SeasonFacts.

Import Calendar.

Lemma mapM_inv {A B} (f : A -> result B) (l : list A) (l' : list B) :
  mapM f l = Ok l' -> Forall2 (fun x y => f x = Ok y) l l'.
Proof.
  revert l'. induction l as [| x l IH]; intros l' Hrun; simpl in Hrun.
  - injection Hrun as <-. constructor.
  - destruct (f x) as [y |] eqn:Hx; [| discriminate]. simpl in Hrun.
    destruct (mapM f l) as [ys |]; [| discriminate]. simpl in Hrun.
    injection Hrun as <-. constructor; [done | by apply IH].
Qed.

Lemma datetime_inv (y m d o : Z) :
  datetime y m d = Ok o -> check_date_fields y m d = true /\ o = ymd2ord y m d.
Proof.
  unfold datetime. intros Hrun.
  destruct (fits_c_int y && fits_c_int m && fits_c_int d); [| discriminate].
  destruct (check_date_fields y m d); [| discriminate].
  by injection Hrun as <-.
Qed.

Lemma timestamp_inv (day o : Z) :
  timestamp day = Ok o -> ts_in_bounds day = true /\ o = day.
Proof.
  unfold timestamp. intros Hrun.
  destruct (ts_in_bounds day); [| discriminate]. by injection Hrun as <-.
Qed.

(** A season is built only for a [freq] of whole days without a periods
    count, from dates that exist and that pandas can hold. *)
Lemma season_of_inv (sm sd em ed : Z) (periods : option Z) (freq : freq_arg)
    (y : Z) (item : Z * list Z) :
  season_of sm sd em ed periods freq y = Ok item ->
  exists k : positive,
    freq = FreqDays k /\ periods = None /\ stride_fits k = true
    /\ season_ok sm sd em ed k y
    /\ item = (y, day_range (ymd2ord y sm sd) (ymd2ord y em ed) k).
Proof.
  unfold season_of. intros Hrun.
  destruct (datetime y sm sd) as [s |] eqn:Hs; [| discriminate].
  destruct (datetime y em ed) as [e |] eqn:He; [| discriminate].
  apply datetime_inv in Hs as [Hs ->]. apply datetime_inv in He as [He ->].
  cbn [bind] in Hrun. unfold date_range, pd_date_range in Hrun.
  cbn [dr_freq dr_periods dr_start dr_end] in Hrun.
  destruct freq as [| k | alias]; [discriminate | | discriminate].
  destruct (stride_fits k) eqn:Hk; [| discriminate].
  destruct periods; [discriminate |].
  destruct (timestamp (ymd2ord y sm sd)) as [s |] eqn:Hsb; [| discriminate].
  destruct (timestamp (ymd2ord y em ed)) as [e |] eqn:Heb; [| discriminate].
  apply timestamp_inv in Hsb as [Hsb ->]. apply timestamp_inv in Heb as [Heb ->].
  cbn [bind] in Hrun.
  destruct (arange_fits _ _ k) eqn:Hfit; [| discriminate].
  cbn [bind] in Hrun. injection Hrun as <-.
  exists k. by repeat split.
Qed.

End SeasonFacts.

(** The year of the ordinal of a date that exists is the year of the
    date. *)
Lemma ord2year_ymd2ord (y m d : Z) :
  Calendar.check_date_fields y m d = true ->
  Calendar.ord2year (Calendar.ymd2ord y m d) = y.
Proof.
  intros Hvalid. apply ord2year_in_year.
  - apply check_date_fields_inv in Hvalid. lia.
  - by apply ymd2ord_in_year.
Qed.

(** X1: [years] reads back the years the dates were built with: on a table
    whose "dates" column holds the dates [datetime(y, m, d)] of a list of
    triples that exist, it returns the distinct [y] of the triples, in order
    of first appearance. *)
Theorem years_reads_back (df : DataFrame) (j : nat) (ds : list (Z * Z * Z)) :
  column_pos (columns df) "dates" = Some j ->
  Forall date_valid ds ->
  map (cell j) (rows df) = map date_ordinal ds ->
  years df = Ok (unique (map date_year ds)).
Proof.
  intros Hj Hvalid Hcol. unfold years. rewrite (getcol_pos _ _ _ Hj), Hcol.
  cbn [bind]. do 2 f_equal. rewrite map_map. apply map_ext_Forall.
  eapply Forall_impl; [exact Hvalid |].
  intros [[y m] d] Hd. by apply ord2year_ymd2ord.
Qed.

Lemma years_reads_back_witness :
  years three_dates = Ok [2017; 2016].
Proof.
  apply (years_reads_back three_dates 0 [(2017, 6, 1); (2016, 1, 15); (2017, 6, 2)]).
  - reflexivity.
  - repeat constructor.
  - reflexivity.
Defined.



(** X3: with a [freq] of [k] whole days (one day by default) and no
    periods count, for a year in which the start and end dates of the season
    exist and lie within the range of pandas' timestamps: when the start
    date is after the end date in the calendar (a later month, or a later
    day of the same month), the sequence [seasons] builds for the year is
    empty; otherwise it starts on the start date. *)
Theorem season_of_start_after_end (sm sd em ed : Z) (k : positive) (y : Z) :
  stride_fits k = true ->
  season_ok sm sd em ed k y ->
  (em < sm \/ (em = sm /\ ed < sd) ->
   season_of sm sd em ed None (FreqDays k) y = Ok (y, []))
  /\ (sm < em \/ (sm = em /\ sd <= ed) ->
      exists rest, season_of sm sd em ed None (FreqDays k) y
                   = Ok (y, Calendar.ymd2ord y sm sd :: rest)).
Proof.
  intros Hk Hok. rewrite (season_of_range _ _ _ _ _ _ Hk Hok).
  destruct Hok as [[Hs _] [[He _] _]]. split.
  - intros Hlt. pose proof (ymd2ord_lt _ _ _ _ _ He Hs Hlt) as Hord.
    do 2 f_equal. unfold day_range.
    replace (Z.to_nat _) with 0%nat; [done |].
    assert ((Calendar.ymd2ord y em ed - Calendar.ymd2ord y sm sd) / Z.pos k < 0)
      by (apply Z.div_lt_upper_bound; lia).
    lia.
  - intros Hle.
    assert (Calendar.ymd2ord y sm sd <= Calendar.ymd2ord y em ed) as Hord.
    { destruct (decide (sm = em /\ sd = ed)) as [[-> ->] | Hne]; [lia |].
      apply Z.lt_le_incl, (ymd2ord_lt _ _ _ _ _ Hs He). lia. }
    pose proof (day_range_head _ _ k Hord) as Hhead.
    destruct (day_range _ _ k) as [| x rest]; [discriminate |].
    injection Hhead as ->. by exists rest.
Qed.

Lemma season_of_start_after_end_witness :
  season_of 9 30 6 1 None (FreqDays 1) 2017 = Ok (2017, []).
Proof.
  apply (proj1 (season_of_start_after_end 9 30 6 1 1 2017 eq_refl
                  (conj (conj eq_refl eq_refl)
                     (conj (conj eq_refl eq_refl) eq_refl)))).
  left. lia.
Defined.

(** ** Further properties of [assemble] *)

Section AssembleMore.

Implicit Types (t : chip_record) (g : grid) (out : gmap string grid).

Lemma norm_index_in_reach (d : Z) :
  in_reach d ->
  exists r : nat, norm_index 100 (int_truediv d 30) = Ok r /\ (r < 100)%nat.
Proof.
  intros [Hlo Hhi]. destruct (decide (-3001 < d)) as [Hd | Hd].
  - exists (landing d). apply norm_index_landing. lia.
  - exists 0%nat. unfold norm_index, int_truediv.
    assert (Z.quot d 30 = -100) as -> by (Z.to_euclidean_division_equations; lia).
    split; [reflexivity | lia].
Qed.

Lemma norm_index_out_of_reach (d : Z) :
  ~ in_reach d -> norm_index 100 (int_truediv d 30) = Raise IndexError.
Proof.
  unfold in_reach, norm_index, int_truediv. intros Hd.
  destruct (decide (3000 <= d)) as [Hhi | Hhi].
  - assert (100 <= Z.quot d 30) by (Z.to_euclidean_division_equations; lia).
    settle_comparisons. reflexivity.
  - assert (Z.quot d 30 < -100) by (Z.to_euclidean_division_equations; lia).
    settle_comparisons. reflexivity.
Qed.

Lemma norm_index_lt (len : nat) (i : Z) (n : nat) :
  norm_index len i = Ok n -> (n < len)%nat.
Proof.
  unfold norm_index. intros Hn.
  destruct (Z.leb_spec 0 i); destruct (Z.ltb_spec i (Z.of_nat len));
    destruct (Z.leb_spec (- Z.of_nat len) i); destruct (Z.ltb_spec i 0);
    simpl in Hn; try discriminate; injection Hn as <-; lia.
Qed.

(** What a successful write to a grid does. *)
Lemma grid_setitem_inv g (row col v : Z) g' :
  grid_setitem g row col v = Ok g' ->
  exists (r c : nat) (line : list Z),
    norm_index (length g) row = Ok r /\ g !! r = Some line
    /\ norm_index (length line) col = Ok c
    /\ g' = <[r := <[c := v]> line]> g.
Proof.
  unfold grid_setitem. intros Hset.
  destruct (norm_index (length g) row) as [r |] eqn:Hr; [| discriminate].
  simpl in Hset. destruct (g !! r) as [line |] eqn:Hline; [| discriminate].
  destruct (norm_index (length line) col) as [c |] eqn:Hc; [| discriminate].
  simpl in Hset. destruct (in_int64 v); [| discriminate].
  injection Hset as <-. by exists r, c, line.
Qed.

(** Only a 64-bit integer is written. *)
Lemma grid_setitem_int64 g (row col v : Z) g' :
  grid_setitem g row col v = Ok g' -> in_int64 v = true.
Proof.
  unfold grid_setitem. intros Hset.
  destruct (norm_index (length g) row) as [r |]; [| discriminate].
  simpl in Hset. destruct (g !! r) as [line |]; [| discriminate].
  destruct (norm_index (length line) col) as [c |]; [| discriminate].
  simpl in Hset. by destruct (in_int64 v).
Qed.

(** One turn of the outer loop, inverted. *)
Lemma assemble_loop_cons_inv t (ts : list chip_record) (ind : Z)
    (bands : list string) out out' :
  assemble_loop (t :: ts) ind bands out = Ok out' ->
  offsets_divide t
  /\ exists mid, assemble_bands t ind (row_of t) (col_of t) bands out = Ok mid
       /\ assemble_loop ts ind bands mid = Ok out'.
Proof.
  rewrite assemble_loop_cons. unfold offsets_divide. intros Hrun.
  destruct (truediv_overflows (x_offset t) 30); [discriminate |].
  destruct (truediv_overflows (y_offset t) 30); [discriminate |].
  cbn [orb] in Hrun.
  destruct (assemble_bands t ind (row_of t) (col_of t) bands out)
    as [mid |]; [| discriminate].
  cbn [bind] in Hrun. split; [done |]. by exists mid.
Qed.

Lemma in_reach_divides (d : Z) : in_reach d -> truediv_overflows d 30 = false.
Proof.
  intros [Hlo Hhi]. apply truediv_small.
  change (30 * 2 ^ 49) with 16888498602639360. lia.
Qed.

Lemma grid_setitem_keeps_shape g (row col v : Z) g' :
  shaped g -> grid_setitem g row col v = Ok g' -> shaped g'.
Proof.
  intros Hshape Hset.
  apply grid_setitem_inv in Hset as [r [c [line [_ [Hline [_ ->]]]]]].
  by apply shaped_insert.
Qed.

(** Reading back at the indices of a write gives the value written. *)
Lemma grid_getitem_setitem g (row col v : Z) g' :
  grid_setitem g row col v = Ok g' -> grid_getitem g' row col = Ok v.
Proof.
  intros Hset.
  apply grid_setitem_inv in Hset as [r [c [line [Hr [Hline [Hc ->]]]]]].
  pose proof (norm_index_lt _ _ _ Hr) as Hrlt.
  pose proof (norm_index_lt _ _ _ Hc) as Hclt.
  unfold grid_getitem, getitem. rewrite length_insert, Hr. cbn [bind].
  rewrite list_lookup_insert_eq by done. cbn [bind].
  rewrite length_insert, Hc. cbn [bind].
  by rewrite list_lookup_insert_eq.
Qed.

(** A write changes no other cell. *)
Lemma grid_setitem_other_cell g (row col v : Z) g' (r c r' c' : nat) :
  shaped g -> grid_setitem g row col v = Ok g' ->
  norm_index 100 row = Ok r -> norm_index 100 col = Ok c ->
  (r', c') <> (r, c) ->
  cell_at g' r' c' = cell_at g r' c'.
Proof.
  intros [Hlen Hall] Hset Hr Hc Hne.
  apply grid_setitem_inv in Hset as [r0 [c0 [line [Hr0 [Hline [Hc0 ->]]]]]].
  rewrite Hlen, Hr in Hr0. injection Hr0 as <-.
  rewrite (Forall_lookup_1 _ _ _ _ Hall Hline), Hc in Hc0. injection Hc0 as <-.
  unfold cell_at. destruct (decide (r' = r)) as [-> | Hrne].
  - rewrite list_lookup_insert_eq by (eapply lookup_lt_Some; exact Hline).
    rewrite Hline. apply list_lookup_insert_ne. congruence.
  - by rewrite list_lookup_insert_ne.
Qed.

Lemma assemble_loop_app (ts ts' : list chip_record) (ind : Z)
    (bands : list string) out :
  assemble_loop (ts ++ ts') ind bands out
  = (let* mid := assemble_loop ts ind bands out in
     assemble_loop ts' ind bands mid).
Proof.
  revert out. induction ts as [| t ts IH]; intros out; [done |].
  rewrite <- app_comm_cons, !assemble_loop_cons.
  destruct (truediv_overflows (x_offset t) 30 || truediv_overflows (y_offset t) 30);
    [done |].
  destruct (assemble_bands t ind (row_of t) (col_of t) bands out); [| done].
  cbn [bind]. apply IH.
Qed.

(** One step of the inner loop, inverted. *)
Lemma assemble_bands_cons_inv t (ind row col : Z) (b : string)
    (bs : list string) out out' :
  assemble_bands t ind row col (b :: bs) out = Ok out' ->
  exists (series : list Z) (v : Z) g g',
    snd t !! b = Some series /\ getitem series ind = Ok v
    /\ out !! b = Some g /\ grid_setitem g row col v = Ok g'
    /\ assemble_bands t ind row col bs (<[b := g']> out) = Ok out'.
Proof.
  cbn [assemble_bands]. unfold dict_get. intros Hrun.
  destruct (snd t !! b) as [series |] eqn:Hs; [| discriminate]. cbn [bind] in Hrun.
  destruct (getitem series ind) as [v |] eqn:Hv; [| discriminate]. cbn [bind] in Hrun.
  destruct (out !! b) as [g |] eqn:Hg; [| discriminate]. cbn [bind] in Hrun.
  destruct (grid_setitem g row col v) as [g' |] eqn:Hset; [| discriminate].
  cbn [bind] in Hrun. by exists series, v, g, g'.
Qed.

(** The inner loop keeps the keys of [out] and the shape of its grids. *)
Lemma assemble_bands_keeps t (ind row col : Z) (todo : list string) out out' :
  assemble_bands t ind row col todo out = Ok out' ->
  map_Forall (fun _ g => shaped g) out ->
  dom out' = dom out /\ map_Forall (fun _ g => shaped g) out'.
Proof.
  revert out. induction todo as [| b todo IH]; intros out Hrun Hshape.
  - injection Hrun as <-. by split.
  - apply assemble_bands_cons_inv in Hrun
      as [series [v [g [g' [_ [_ [Hg [Hset Hrest]]]]]]]].
    destruct (IH _ Hrest) as [Hdom Hshape'].
    + apply map_Forall_insert_2; [| done].
      eapply grid_setitem_keeps_shape; [| exact Hset]. by apply (Hshape b).
    + split; [| done]. rewrite Hdom. apply dom_insert_lookup_L. by exists g.
Qed.

Lemma assemble_loop_keeps (ts : list chip_record) (ind : Z)
    (bands : list string) out out' :
  assemble_loop ts ind bands out = Ok out' ->
  map_Forall (fun _ g => shaped g) out ->
  dom out' = dom out /\ map_Forall (fun _ g => shaped g) out'.
Proof.
  revert out. induction ts as [| t ts IH]; intros out Hrun Hshape.
  - injection Hrun as <-. by split.
  - apply assemble_loop_cons_inv in Hrun as [_ [mid [Hstep Hrun]]].
    destruct (assemble_bands_keeps _ _ _ _ _ _ _ Hstep Hshape)
      as [Hdom Hmid].
    destruct (IH _ Hrun Hmid) as [Hdom' Hout]. split; [congruence | done].
Qed.

Lemma assemble_init_spec (bands : list string) :
  dom (assemble_init bands) = list_to_set bands
  /\ map_Forall (fun _ g => g = zeros 100 100) (assemble_init bands).
Proof.
  unfold assemble_init.
  induction bands as [| b bands [IHdom IHall]] using rev_ind.
  - simpl. split; [by rewrite dom_empty_L | apply map_Forall_empty].
  - rewrite foldl_app. simpl. split.
    + rewrite dom_insert_L, IHdom, list_to_set_app_L. simpl.
      by rewrite (right_id_L ∅ (∪)), (comm_L (∪)).
    + by apply map_Forall_insert_2.
Qed.

Lemma assemble_init_shaped (bands : list string) :
  map_Forall (fun _ g => shaped g) (assemble_init bands).
Proof.
  eapply map_Forall_impl; [apply assemble_init_spec |].
  intros b g ->. apply shaped_zeros.
Qed.

End AssembleMore.

Section AssembleTheorems.

Implicit Types (t : chip_record) (g : grid) (out : gmap string grid).

Lemma grid_setitem_indices g (row col v : Z) g' :
  shaped g -> grid_setitem g row col v = Ok g' ->
  exists r c : nat, norm_index 100 row = Ok r /\ norm_index 100 col = Ok c.
Proof.
  intros [Hlen Hall] Hset.
  apply grid_setitem_inv in Hset as [r [c [line [Hr [Hline [Hc _]]]]]].
  rewrite Hlen in Hr. rewrite (Forall_lookup_1 _ _ _ _ Hall Hline) in Hc.
  by exists r, c.
Qed.

Lemma offset_in_reach (d : Z) (r : nat) :
  norm_index 100 (int_truediv d 30) = Ok r -> in_reach d.
Proof.
  intros Hr. destruct (decide (in_reach d)) as [H | H]; [done |].
  rewrite (norm_index_out_of_reach _ H) in Hr. discriminate.
Qed.

Lemma assemble_bands_ok_inv t (ind row col : Z) (todo : list string) out out' :
  assemble_bands t ind row col todo out = Ok out' ->
  map_Forall (fun _ g => shaped g) out ->
  storable ind todo t
  /\ (todo <> [] ->
      exists r c : nat, norm_index 100 row = Ok r /\ norm_index 100 col = Ok c).
Proof.
  revert out. induction todo as [| b todo IH]; intros out Hrun Hshape.
  - split; [constructor | done].
  - apply assemble_bands_cons_inv in Hrun
      as [series [v [g [g' [Hs [Hv [Hg [Hset Hrest]]]]]]]].
    assert (shaped g) as Hsg by (by apply (Hshape b)).
    destruct (IH _ Hrest) as [Hread _].
    + apply map_Forall_insert_2; [| done].
      by eapply grid_setitem_keeps_shape.
    + split.
      * constructor; [| done]. exists v. split.
        -- exists series. by split.
        -- by eapply grid_setitem_int64.
      * intros _. by eapply grid_setitem_indices.
Qed.

Lemma assemble_loop_ok_inv (ts : list chip_record) (ind : Z)
    (bands : list string) out out' :
  assemble_loop ts ind bands out = Ok out' ->
  map_Forall (fun _ g => shaped g) out ->
  Forall (storable ind bands) ts
  /\ Forall offsets_divide ts
  /\ (bands <> [] -> Forall record_in_reach ts).
Proof.
  revert out. induction ts as [| t ts IH]; intros out Hrun Hshape.
  - split; [constructor | split; [constructor | intros _; constructor]].
  - apply assemble_loop_cons_inv in Hrun as [Hdiv [mid [Hstep Hrun]]].
    destruct (assemble_bands_ok_inv _ _ _ _ _ _ _ Hstep Hshape) as [Hread Hidx].
    destruct (assemble_bands_keeps _ _ _ _ _ _ _ Hstep Hshape) as [_ Hmid].
    destruct (IH _ Hrun Hmid) as [Hreads [Hdivs Hreach]].
    split; [by constructor |]. split; [by constructor |].
    intros Hne. constructor; [| by apply Hreach].
    destruct (Hidx Hne) as [r [c [Hr Hc]]].
    rewrite row_of_offset in Hr. rewrite col_of_offset in Hc.
    split; by eapply offset_in_reach.
Qed.

(** Without bands the loop only computes the indices. *)
Lemma assemble_loop_no_bands (ts : list chip_record) (ind : Z) out :
  Forall offsets_divide ts -> assemble_loop ts ind [] out = Ok out.
Proof.
  induction 1 as [| t ts [Hx Hy] _ IH]; [done |].
  rewrite assemble_loop_cons, Hx, Hy. exact IH.
Qed.

Lemma assemble_loop_total_reach (ts : list chip_record) (ind : Z)
    (bands : list string) out :
  Forall record_in_reach ts -> Forall (storable ind bands) ts ->
  all_shaped bands out ->
  exists out', assemble_loop ts ind bands out = Ok out'.
Proof.
  revert out. induction ts as [| t ts IH]; intros out Hreach Hread Hout.
  - by exists out.
  - apply Forall_cons in Hreach as [[Hx Hy] Hreach].
    apply Forall_cons in Hread as [Hrd Hread].
    destruct (norm_index_in_reach _ Hy) as [r [Hr Hlt]].
    destruct (norm_index_in_reach _ Hx) as [c [Hc _]].
    rewrite <- row_of_offset in Hr. rewrite <- col_of_offset in Hc.
    destruct (assemble_bands_total t ind _ _ _ _ bands bands out Hr Hlt Hc Hrd)
      as [mid [Hstep Hmid]]; [done | exact Hout |].
    rewrite assemble_loop_cons, !in_reach_divides by done.
    cbn [orb]. rewrite Hstep. cbn [bind]. by apply IH.
Qed.

(** A value written for a band survives the rest of the inner loop: a later
    write to the same band writes the same value at the same place. *)
Lemma assemble_bands_preserves t (ind row col : Z) (todo : list string) out out' :
  assemble_bands t ind row col todo out = Ok out' ->
  forall (b : string) g (v : Z),
    out !! b = Some g -> reads t b ind v -> grid_getitem g row col = Ok v ->
    exists g', out' !! b = Some g' /\ grid_getitem g' row col = Ok v.
Proof.
  revert out. induction todo as [| b0 todo IH]; intros out Hrun b g v Hg Hread Hget.
  - injection Hrun as <-. by exists g.
  - apply assemble_bands_cons_inv in Hrun
      as [series [v0 [g0 [g0' [Hs [Hv [Hg0 [Hset Hrest]]]]]]]].
    destruct (decide (b0 = b)) as [-> | Hne].
    + destruct Hread as [series' [Hs' Hv']].
      assert (v0 = v) as -> by congruence.
      apply (IH _ Hrest b g0' v); [by rewrite lookup_insert_eq | | ].
      * exists series. by split.
      * by eapply grid_getitem_setitem.
    + apply (IH _ Hrest b g v); [by rewrite lookup_insert_ne | done | done].
Qed.

Lemma assemble_bands_written t (ind row col : Z) (todo : list string) out out' :
  assemble_bands t ind row col todo out = Ok out' ->
  forall b : string, b ∈ todo ->
    exists g (v : Z),
      out' !! b = Some g /\ reads t b ind v /\ grid_getitem g row col = Ok v.
Proof.
  revert out. induction todo as [| b0 todo IH]; intros out Hrun b Hb.
  - by apply elem_of_nil in Hb.
  - pose proof Hrun as Hrun0.
    apply assemble_bands_cons_inv in Hrun
      as [series [v0 [g0 [g0' [Hs [Hv [Hg0 [Hset Hrest]]]]]]]].
    destruct (decide (b = b0)) as [-> | Hne].
    + assert (reads t b0 ind v0) as Hread by (exists series; by split).
      destruct (assemble_bands_preserves _ _ _ _ _ _ _ Hrest b0 g0' v0)
        as [g' [Hg' Hget]];
        [by rewrite lookup_insert_eq | done | by eapply grid_getitem_setitem |].
      by exists g', v0.
    + apply elem_of_cons in Hb as [-> | Hb]; [done |]. by apply (IH _ Hrest).
Qed.

Lemma cell_at_zeros (r c : nat) :
  (r < 100)%nat -> (c < 100)%nat -> cell_at (zeros 100 100) r c = Some 0.
Proof.
  intros Hr Hc. unfold cell_at, zeros.
  rewrite (proj2 (lookup_replicate 100 (replicate 100 0) (replicate 100 0) r))
    by (split; [done | lia]).
  apply lookup_replicate. split; [done | lia].
Qed.

Lemma assemble_bands_untouched t (ind : Z) (todo : list string) out out'
    (r c : nat) :
  assemble_bands t ind (row_of t) (col_of t) todo out = Ok out' ->
  ~ lands_on t r c ->
  map_Forall (fun _ g => shaped g /\ cell_at g r c = Some 0) out ->
  map_Forall (fun _ g => shaped g /\ cell_at g r c = Some 0) out'.
Proof.
  intros Hrun Hoff. revert out Hrun.
  induction todo as [| b todo IH]; intros out Hrun Hinv.
  - by injection Hrun as <-.
  - apply assemble_bands_cons_inv in Hrun
      as [series [v [g [g' [_ [_ [Hg [Hset Hrest]]]]]]]].
    destruct (Hinv b g Hg) as [Hshape Hcell].
    apply (IH _ Hrest). apply map_Forall_insert_2; [| done]. split.
    + by eapply grid_setitem_keeps_shape.
    + destruct (grid_setitem_indices _ _ _ _ _ Hshape Hset) as [r' [c' [Hr' Hc']]].
      rewrite (grid_setitem_other_cell g (row_of t) (col_of t) v g' r' c' r c); try done.
      intros [= -> ->]. apply Hoff. by split.
Qed.

End AssembleTheorems.

(** X4: [assemble] returns exactly when (i) every record has, for every
    band, a series in which [ind] is a valid index and whose value there is
    a 64-bit integer, (ii) both offsets of every record are small enough for
    their division by 30 to be a float, and (iii) some band being asked for,
    both offsets of every record are strictly between -3030 and 3000;
    otherwise it raises. *)
Theorem assemble_returns_iff (ts : list chip_record) (ind : Z)
    (bands : list string) :
  (exists out, assemble ts ind bands = Ok out)
  <-> Forall (storable ind bands) ts
      /\ Forall offsets_divide ts
      /\ (bands <> [] -> Forall record_in_reach ts).
Proof.
  unfold assemble. split.
  - intros [out Hrun].
    apply (assemble_loop_ok_inv _ _ _ _ _ Hrun), assemble_init_shaped.
  - intros [Hread [Hdiv Hreach]]. destruct bands as [| b bands].
    + exists (assemble_init []). by apply assemble_loop_no_bands.
    + apply assemble_loop_total_reach; [by apply Hreach | done |].
      apply all_shaped_init.
Qed.

(** X5: whenever [assemble] returns, the result has one grid for each band
    asked for and no other key, and every grid is 100 by 100. *)
Theorem assemble_grids_shaped (ts : list chip_record) (ind : Z)
    (bands : list string) (out : gmap string grid) :
  assemble ts ind bands = Ok out ->
  dom out = list_to_set bands
  /\ forall (b : string) (g : grid), out !! b = Some g -> shaped g.
Proof.
  unfold assemble. intros Hrun.
  destruct (assemble_loop_keeps _ _ _ _ _ Hrun (assemble_init_shaped bands))
    as [Hdom Hshape].
  split; [| exact Hshape]. rewrite Hdom. apply assemble_init_spec.
Qed.

Lemma assemble_grids_shaped_witness :
  dom ({["B1" := one_cell 0 0 42]} : gmap string grid) = list_to_set ["B1"]
  /\ forall (b : string) (g : grid),
       ({["B1" := one_cell 0 0 42]} : gmap string grid) !! b = Some g -> shaped g.
Proof.
  apply (assemble_grids_shaped origin_series 0 ["B1"]).
  vm_compute. reflexivity.
Defined.

(** X6: the last record wins: whenever [assemble] returns, each band's grid
    holds, at the row and column index of the last record of the series,
    that record's value for the band. *)
Theorem assemble_last_write_wins (ts : list chip_record) (t : chip_record)
    (ind : Z) (bands : list string) (out : gmap string grid) :
  assemble (ts ++ [t]) ind bands = Ok out ->
  forall b : string, b ∈ bands ->
    exists (g : grid) (v : Z),
      out !! b = Some g /\ reads t b ind v
      /\ grid_getitem g (row_of t) (col_of t) = Ok v.
Proof.
  unfold assemble. rewrite assemble_loop_app. intros Hrun b Hb.
  destruct (assemble_loop ts ind bands (assemble_init bands)) as [mid |];
    [| discriminate].
  cbn [bind] in Hrun.
  apply assemble_loop_cons_inv in Hrun as [_ [out1 [Hstep Hrun]]].
  cbn [assemble_loop] in Hrun. injection Hrun as <-.
  by apply (assemble_bands_written _ _ _ _ _ _ _ Hstep).
Qed.

Lemma assemble_last_write_wins_witness :
  exists (g : grid) (v : Z),
    ({["B1" := one_cell 0 0 7]} : gmap string grid) !! "B1" = Some g
    /\ reads ((0, 0, 0, 0), {["B1" := [7]]}) "B1" 0 v
    /\ grid_getitem g 0 0 = Ok v.
Proof.
  apply (assemble_last_write_wins origin_series ((0, 0, 0, 0), {["B1" := [7]]})
           0 ["B1"] {["B1" := one_cell 0 0 7]}).
  - vm_compute. reflexivity.
  - apply list_elem_of_singleton. reflexivity.
Defined.

(** X7: [assemble] writes nowhere else: whenever it returns, a cell of a
    band's grid on which no record of the series lands holds 0. *)
Theorem assemble_untouched_cells_zero (ts : list chip_record) (ind : Z)
    (bands : list string) (out : gmap string grid) (b : string) (g : grid)
    (r c : nat) :
  assemble ts ind bands = Ok out -> out !! b = Some g ->
  (r < 100)%nat -> (c < 100)%nat ->
  Forall (fun t => ~ lands_on t r c) ts ->
  cell_at g r c = Some 0.
Proof.
  unfold assemble. intros Hrun Hg Hr Hc Hoff.
  assert (map_Forall (fun _ g => shaped g /\ cell_at g r c = Some 0)
            (assemble_init bands)) as Hinit.
  { eapply map_Forall_impl; [apply assemble_init_spec |].
    intros b' g' ->. split; [apply shaped_zeros | by apply cell_at_zeros]. }
  revert Hrun Hinit. generalize (assemble_init bands).
  induction Hoff as [| t ts Ht _ IH]; intros out0 Hrun Hinv.
  - injection Hrun as <-. by apply (Hinv b g Hg).
  - apply assemble_loop_cons_inv in Hrun as [_ [mid [Hstep Hrun]]].
    apply (IH mid Hrun).
    by eapply assemble_bands_untouched.
Qed.

Lemma assemble_untouched_cells_zero_witness :
  cell_at (one_cell 0 0 42) 5 7 = Some 0.
Proof.
  apply (assemble_untouched_cells_zero origin_series 0 ["B1"]
           {["B1" := one_cell 0 0 42]} "B1").
  - vm_compute. reflexivity.
  - reflexivity.
  - lia.
  - lia.
  - constructor; [| constructor]. intros [Hrow _]. discriminate.
Defined.

(** ** Further properties of [dates], [mask], [sort_on] and [temporal] *)

Section FrameMore.

Implicit Types (df : DataFrame) (rs : list row) (r : row) (j : nat).

Lemma column_pos_Some (cols : list string) (field : string) j :
  column_pos cols field = Some j ->
  cols !! j = Some field /\ forall i, (i < j)%nat -> cols !! i <> Some field.
Proof.
  revert j. induction cols as [| c cols IH]; intros j Hj; [discriminate |].
  simpl in Hj. destruct (String.eqb_spec c field) as [-> | Hne].
  - injection Hj as <-. split; [done | lia].
  - destruct (column_pos cols field) as [j' |]; [| discriminate].
    injection Hj as <-. destruct (IH j' eq_refl) as [Hat Hfirst]. split; [done |].
    intros [| i] Hi; simpl; [congruence | apply Hfirst; lia].
Qed.

Lemma column_pos_None (cols : list string) (field : string) :
  column_pos cols field = None <-> field ∉ cols.
Proof.
  induction cols as [| c cols IH]; simpl.
  - split; [intros _; apply not_elem_of_nil | done].
  - rewrite not_elem_of_cons. destruct (String.eqb_spec c field) as [-> | Hne].
    + split; [discriminate | tauto].
    + destruct (column_pos cols field); simpl.
      * split; [discriminate |]. intros [_ H]. by apply IH in H.
      * split; [| done]. intros _. split; [congruence | by apply IH].
Qed.

Lemma column_pos_is_Some (cols : list string) (field : string) :
  (exists j, column_pos cols field = Some j) <-> field ∈ cols.
Proof.
  destruct (column_pos cols field) as [j |] eqn:Hj.
  - split; [| by exists j]. intros _.
    apply column_pos_Some in Hj as [Hat _]. by eapply list_elem_of_lookup_2.
  - apply column_pos_None in Hj. split; [by intros [? ?] | done].
Qed.

(** Two filters on cells, each followed by a relabelling, are one filter. *)
Lemma relabel_filter_twice (P Q : row -> Prop)
    `{!forall r, Decision (P r)} `{!forall r, Decision (Q r)} rs :
  (forall r r', cells r = cells r' -> P r <-> P r') ->
  relabel 0 (filter P (relabel 0 (filter Q rs)))
  = relabel 0 (filter (fun r => P r /\ Q r) rs).
Proof.
  intros HP. apply relabel_cells_eq.
  rewrite filter_relabel_cells by exact HP. by rewrite list_filter_filter.
Qed.

Lemma filter_all (P : row -> Prop) `{!forall r, Decision (P r)} rs :
  (forall r, P r) -> filter P rs = rs.
Proof.
  intros HP. induction rs as [| r rs IH]; [done |].
  by rewrite filter_cons_True, IH.
Qed.

Lemma filter_none (P : row -> Prop) `{!forall r, Decision (P r)} rs :
  (forall r, ~ P r) -> filter P rs = [].
Proof.
  intros HP. induction rs as [| r rs IH]; [done |].
  by rewrite filter_cons_False.
Qed.

Lemma cell_cells j r r' : cells r = cells r' -> cell j r = cell j r'.
Proof. unfold cell. by intros ->. Qed.

End FrameMore.

(** X8: [dates] and [mask] return exactly when the table has the column
    they look at, and raise [KeyError] otherwise. *)
Theorem row_filters_need_column (df : DataFrame) (a b : Z) (vals : list Z)
    (field : string) :
  ((exists df', dates df (a, b) field = Ok df') <-> field ∈ columns df)
  /\ (field ∉ columns df -> dates df (a, b) field = Raise KeyError)
  /\ ((exists df', mask df vals field = Ok df') <-> field ∈ columns df)
  /\ (field ∉ columns df -> mask df vals field = Raise KeyError).
Proof.
  destruct (column_pos (columns df) field) as [j |] eqn:Hj.
  - assert (field ∈ columns df) as Hin by (apply column_pos_is_Some; by exists j).
    rewrite (dates_rows _ _ _ _ _ Hj), (mask_rows _ _ _ _ Hj).
    repeat split; try done; intros _; eauto.
  - assert (field ∉ columns df) as Hout by (by apply column_pos_None).
    unfold dates, mask. rewrite (getcol_missing _ _ Hj). cbn [bind].
    repeat split; try done; by intros [? ?].
Qed.

(** X9: slicing a slice is slicing once by the intersection of the two
    windows (with the same outcome, [KeyError], when the column is
    missing). *)
Theorem dates_compose (df : DataFrame) (a b c d : Z) (field : string) :
  (let* inner := dates df (a, b) field in dates inner (c, d) field)
  = dates df (Z.max a c, Z.min b d) field.
Proof.
  destruct (column_pos (columns df) field) as [j |] eqn:Hj.
  - rewrite !(dates_rows _ _ _ _ _ Hj). cbn [bind].
    rewrite (dates_rows _ _ _ _ j) by exact Hj. cbn [columns rows].
    do 2 f_equal.
    rewrite relabel_filter_twice
      by (intros r r' Hc; by rewrite (cell_cells j r r' Hc)).
    f_equal. apply list_filter_iff. intros r. lia.
  - unfold dates. by rewrite (getcol_missing _ _ Hj).
Qed.

(** X10: slicing by date and masking commute: either order keeps the rows
    that are inside the window and whose mask value is allowed, and either
    order raises [KeyError] when one of the two columns is missing. *)
Theorem dates_mask_commute (df : DataFrame) (a b : Z) (field : string)
    (vals : list Z) (mask_field : string) :
  (let* sliced := dates df (a, b) field in mask sliced vals mask_field)
  = (let* masked := mask df vals mask_field in dates masked (a, b) field).
Proof.
  destruct (column_pos (columns df) field) as [j |] eqn:Hj;
    destruct (column_pos (columns df) mask_field) as [jm |] eqn:Hjm.
  - rewrite (dates_rows _ _ _ _ _ Hj), (mask_rows _ _ _ _ Hjm). cbn [bind].
    rewrite (mask_rows _ _ _ jm) by exact Hjm.
    rewrite (dates_rows _ _ _ _ j) by exact Hj. cbn [columns rows].
    do 2 f_equal.
    rewrite !relabel_filter_twice
      by (intros r r' Hc;
          first [by rewrite (cell_cells jm r r' Hc) | by rewrite (cell_cells j r r' Hc)]).
    f_equal. apply list_filter_iff. intros r. tauto.
  - rewrite (dates_rows _ _ _ _ _ Hj). cbn [bind]. unfold mask, getcol.
    cbn [columns]. by rewrite Hjm.
  - unfold dates at 1. rewrite (getcol_missing _ _ Hj). cbn [bind].
    rewrite (mask_rows _ _ _ _ Hjm). cbn [bind]. unfold dates, getcol.
    cbn [columns]. by rewrite Hj.
  - unfold dates at 1. rewrite (getcol_missing _ _ Hj).
    unfold mask. by rewrite (getcol_missing _ _ Hjm).
Qed.

(** X11: masking twice with two lists of values is masking once with both
    lists together; masking with no value keeps every row. *)
Theorem mask_compose (df : DataFrame) (vals1 vals2 : list Z) (mask_field : string) :
  (let* once := mask df vals1 mask_field in mask once vals2 mask_field)
  = mask df (vals1 ++ vals2) mask_field
  /\ mask df [] mask_field
     = (let* _ := getcol df mask_field in Ok (reset_index df)).
Proof.
  destruct (column_pos (columns df) mask_field) as [j |] eqn:Hj.
  - rewrite !(mask_rows _ _ _ _ Hj), (getcol_pos _ _ _ Hj). cbn [bind].
    rewrite (mask_rows _ _ _ j) by exact Hj. cbn [columns rows]. split.
    + do 2 f_equal.
      rewrite relabel_filter_twice
        by (intros r r' Hc; by rewrite (cell_cells j r r' Hc)).
      f_equal. apply list_filter_iff. intros r. rewrite elem_of_app. tauto.
    + unfold reset_index. do 3 f_equal.
      apply filter_all. intros r. apply not_elem_of_nil.
  - unfold mask. by rewrite (getcol_missing _ _ Hj).
Qed.

(** X12: a window whose lower bound is above its upper bound selects no
    row. *)
Theorem dates_empty_window (df : DataFrame) (a b : Z) (field : string) (j : nat) :
  column_pos (columns df) field = Some j -> b < a ->
  dates df (a, b) field = Ok (mkdf (columns df) []).
Proof.
  intros Hj Hab. rewrite (dates_rows _ _ _ _ _ Hj). do 2 f_equal.
  rewrite filter_none; [done |]. intros r. lia.
Qed.

Lemma dates_empty_window_witness :
  dates three_dates (736482, 736481) "dates" = Ok (mkdf ["dates"; "qa"] []).
Proof. apply (dates_empty_window three_dates 736482 736481 "dates" 0 eq_refl). lia. Defined.

(** X13: [sort_on] (and [temporal], which is the same call) returns only
    when pandas reads the flag as axis 0 and the table has the field; the
    result then has the same columns, the same rows up to order, sorted in
    ascending order of the field whatever the flag, and labelled from 0. *)
Theorem sort_on_result (bool_axis : bool -> result nat) (df : DataFrame)
    (field : string) (ascending : bool) (df' : DataFrame) :
  sort_on bool_axis df field ascending = Ok df' ->
  temporal bool_axis df ascending field = Ok df'
  /\ bool_axis ascending = Ok 0%nat
  /\ exists j,
       column_pos (columns df) field = Some j
       /\ columns df' = columns df
       /\ map cells (rows df') ≡ₚ map cells (rows df)
       /\ Sorted Z.le (map (cell j) (rows df'))
       /\ map label (rows df') = seqZ 0 (Z.of_nat (length (rows df))).
Proof.
  intros Hrun. split; [exact Hrun |]. revert Hrun.
  unfold sort_on, sort_values, get_axis_number.
  destruct (bool_axis ascending) as [[| n] | e]; cbn [bind]; try discriminate.
  destruct (column_pos (columns df) field) as [j |]; cbn [bind]; [| discriminate].
  intros [= <-]. split; [done |]. exists j. cbn [columns rows reset_index].
  split; [done |]. split; [done |]. split; [| split].
  - rewrite cells_relabel. apply Permutation_map, sort_asc_perm.
  - rewrite cell_relabel. apply sort_asc_sorted.
  - rewrite labels_relabel. do 2 f_equal. apply Permutation_length, sort_asc_perm.
Qed.

Lemma sort_on_result_witness :
  temporal bool_axis_as_int two_dates_descending false "dates"
  = Ok (mkdf ["dates"] [mkrow 0 [1]; mkrow 1 [2]])
  /\ bool_axis_as_int false = Ok 0%nat.
Proof.
  destruct (sort_on_result bool_axis_as_int two_dates_descending "dates" false
              (mkdf ["dates"] [mkrow 0 [1]; mkrow 1 [2]]) eq_refl)
    as [Htemporal [Haxis _]].
  split; [exact Htemporal | exact Haxis].
Defined.
(** ** Further properties of [nearest_date], [spectral_signature] and
    [date_range] *)

Section NearestMore.

Import Calendar.

Lemma argmin_index (l : list Z) :
  l <> [] -> exists i : nat, argmin l = Ok i /\ (i < length l)%nat.
Proof.
  intros Hne.
  destruct (argmin_first_minimum l Hne) as [i [x [Hres [Hi _]]]].
  exists i. split; [done |]. by apply lookup_lt_Some in Hi.
Qed.

(** The days pandas holds as timestamps are ordinals of dates. *)
Lemma ts_in_bounds_ordinal (a : Z) : ts_in_bounds a = true -> 1 <= a <= 3652059.
Proof.
  unfold ts_in_bounds, ts_value, EPOCH_DAY, NS_PER_DAY, INT64_MIN, INT64_MAX.
  rewrite andb_true_iff, Z.ltb_lt, Z.leb_le.
  change (2 ^ 63) with 9223372036854775808. lia.
Qed.

Lemma mapM_toordinal (l : list Z) :
  Forall (fun a => ts_in_bounds a = true) l -> mapM toordinal l = Ok l.
Proof.
  induction 1 as [| a l Ha _ IH]; [done |].
  cbn [mapM]. unfold toordinal at 1. rewrite Ha. cbn [bind].
  by rewrite IH.
Qed.

End NearestMore.

(** X14: on an int64 array, [nearest_date] returns exactly when the array
    is not empty and the date exists, and then a valid index of the array;
    it raises [OverflowError] exactly when the year, month or day is not a C
    integer, and [ValueError] exactly when they are C integers and the date
    does not exist or the array is empty. *)
Theorem nearest_date_raises_iff (array : list Z) (y m d : Z) :
  forallb in_int64 array = true ->
  (nearest_date array (y, m, d) = Raise OverflowError
   <-> fits_c_int y && fits_c_int m && fits_c_int d = false)
  /\ (nearest_date array (y, m, d) = Raise ValueError
      <-> fits_c_int y && fits_c_int m && fits_c_int d = true
          /\ (array = [] \/ Calendar.check_date_fields y m d = false))
  /\ ((exists i : nat, nearest_date array (y, m, d) = Ok i /\ (i < length array)%nat)
      <-> array <> [] /\ Calendar.check_date_fields y m d = true).
Proof.
  intros H64. unfold nearest_date.
  destruct (Calendar.check_date_fields y m d) eqn:Hvalid.
  - rewrite (datetime_valid _ _ _ Hvalid). cbn [bind]. rewrite H64.
    assert (fits_c_int y && fits_c_int m && fits_c_int d = true) as Hfits.
    { pose proof (datetime_valid _ _ _ Hvalid) as Hrun.
      unfold Calendar.datetime in Hrun.
      by destruct (fits_c_int y && fits_c_int m && fits_c_int d). }
    rewrite Hfits. destruct array as [| a array].
    + split; [split; discriminate |].
      split; [split; [by intros _; split; [| left] | done] |].
      split; [by intros [i [? ?]] | by intros [? _]].
    + destruct (argmin_index
                  (map (fun a0 => wrap64 (Z.abs (wrap64 (a0 - Calendar.ymd2ord y m d))))
                     (a :: array))) as [i [Hres Hi]]; [done |].
      rewrite Hres. split; [split; discriminate |]. split.
      * split; [done |]. intros [_ [? | ?]]; done.
      * split; [done |]. intros _. exists i. split; [done |].
        by rewrite length_map in Hi.
  - unfold Calendar.datetime. rewrite Hvalid.
    destruct (fits_c_int y && fits_c_int m && fits_c_int d); cbn [bind].
    + split; [split; discriminate |].
      split; [split; [by intros _; split; [| right] | done] |].
      split; [by intros [i [? ?]] | by intros [_ ?]].
    + split; [done |].
      split; [split; [discriminate | by intros [? _]] |].
      split; [by intros [i [? ?]] | by intros [_ ?]].
Qed.

Lemma nearest_date_raises_iff_witness :
  nearest_date [4; 8] (2147483648, 1, 6) = Raise OverflowError.
Proof.
  apply (proj1 (nearest_date_raises_iff [4; 8] 2147483648 1 6 eq_refl)).
  reflexivity.
Defined.

(** X15: when the target's ordinal is in the array, an int64 array from
    whose entries the ordinal is subtracted without leaving the 64-bit
    integers, [nearest_date] returns the index of its first occurrence. *)
Theorem nearest_date_exact_hit (array : list Z) (y m d : Z) :
  Calendar.check_date_fields y m d = true ->
  Forall (subtracts_exactly (Calendar.ymd2ord y m d)) array ->
  Calendar.ymd2ord y m d ∈ array ->
  exists i : nat,
    nearest_date array (y, m, d) = Ok i
    /\ array !! i = Some (Calendar.ymd2ord y m d)
    /\ forall j : nat, (j < i)%nat -> array !! j <> Some (Calendar.ymd2ord y m d).
Proof.
  intros Hvalid Hexact Hin.
  rewrite (nearest_date_exact _ _ _ _ Hvalid Hexact).
  set (t := Calendar.ymd2ord y m d) in *.
  set (dist := fun a : Z => Z.abs (a - t)).
  destruct (argmin_first_minimum (map dist array)) as [i [x [Hres [Hi [Hmin Hfirst]]]]].
  { destruct array; [by apply elem_of_nil in Hin | discriminate]. }
  change (@map Z Z) with (@fmap list _ Z Z) in *.
  rewrite list_lookup_fmap in Hi.
  destruct (array !! i) as [a |] eqn:Ha; [| discriminate].
  simpl in Hi. injection Hi as <-.
  apply list_elem_of_lookup in Hin as [k Hk].
  assert (dist a <= dist t) as Hle
    by (apply (Hmin k); by rewrite list_lookup_fmap, Hk).
  assert (a = t) as -> by (unfold dist in Hle; lia).
  exists i. split; [exact Hres |]. split; [done |].
  intros j Hj Hjt.
  assert (dist t < dist t); [| lia].
  apply (Hfirst j); [done |]. by rewrite list_lookup_fmap, Hjt.
Qed.

Lemma nearest_date_exact_hit_witness :
  exists i : nat,
    nearest_date [4; 6; 6] (1, 1, 6) = Ok i /\ [4; 6; 6] !! i = Some 6.
Proof.
  destruct (nearest_date_exact_hit [4; 6; 6] 1 1 6 eq_refl) as [i [Hrun [Hi _]]].
  - repeat (apply List.Forall_cons || apply List.Forall_nil);
      split; vm_compute; reflexivity.
  - apply list_elem_of_In. simpl. tauto.
  - exists i. split; [exact Hrun | exact Hi].
Defined.

(** X16: on a table with at least one row, whose "dates" column holds
    timestamps (days within the range of pandas' timestamps), and for a date
    that exists, [spectral_signature] returns a row of the table, and no row
    of the table is dated nearer to the date; on a table without a "dates"
    column it is an [AttributeError]. *)
Theorem spectral_signature_nearest_row :
  (forall (df : DataFrame) (y m d : Z) (j : nat),
     column_pos (columns df) "dates" = Some j -> rows df <> [] ->
     Forall (fun r => ts_in_bounds (cell j r) = true) (rows df) ->
     Calendar.check_date_fields y m d = true ->
     exists r : row,
       spectral_signature df (y, m, d) = inr (Ok r)
       /\ r ∈ rows df
       /\ forall r' : row, r' ∈ rows df ->
            Z.abs (cell j r - Calendar.ymd2ord y m d)
            <= Z.abs (cell j r' - Calendar.ymd2ord y m d))
  /\ (forall (df : DataFrame) (date : Z * Z * Z),
        column_pos (columns df) "dates" = None ->
        spectral_signature df date = inl AttributeError).
Proof.
  split.
  - intros df y m d j Hj Hne Hts Hvalid. unfold spectral_signature. rewrite Hj.
    destruct (rows df) as [| r0 rs] eqn:Hrows; [done |]. rewrite <- Hrows in *.
    rewrite mapM_toordinal by (by apply Forall_map).
    cbn [bind]. rewrite (nearest_date_exact _ _ _ _ Hvalid).
    2:{ apply Forall_map. eapply Forall_impl; [exact Hts |].
        intros r Hr. simpl in *.
        by apply ordinal_subtracts_exactly, ts_in_bounds_ordinal. }
    set (t := Calendar.ymd2ord y m d).
    set (dist := fun a : Z => Z.abs (a - t)).
    destruct (argmin_first_minimum (map dist (map (cell j) (rows df))))
      as [i [x [Hres [Hi [Hmin _]]]]].
    { rewrite Hrows. discriminate. }
    rewrite Hres. cbn [bind]. unfold iloc.
    change (@map Z Z) with (@fmap list _ Z Z) in *.
    change (@map row Z) with (@fmap list _ row Z) in *.
    rewrite !list_lookup_fmap in Hi.
    destruct (rows df !! i) as [r |] eqn:Hr; [| discriminate].
    simpl in Hi. injection Hi as <-.
    exists r. split; [done |]. split; [by eapply list_elem_of_lookup_2 |].
    intros r' Hr'. apply list_elem_of_lookup in Hr' as [k Hk].
    apply (Hmin k). by rewrite !list_lookup_fmap, Hk.
  - intros df date Hj. unfold spectral_signature. by rewrite Hj.
Qed.

Lemma spectral_signature_nearest_row_witness :
  exists r : row,
    spectral_signature three_dates (2017, 6, 3) = inr (Ok r) /\ r ∈ rows three_dates.
Proof.
  destruct (proj1 spectral_signature_nearest_row three_dates 2017 6 3 0%nat)
    as [r [Hrun [Hin _]]].
  - reflexivity.
  - discriminate.
  - repeat (apply List.Forall_cons || apply List.Forall_nil); reflexivity.
  - reflexivity.
  - exists r. split; [exact Hrun | exact Hin].
Defined.

Section DayRange.

Lemma day_range_count (s e : Z) (k : positive) :
  s <= e -> Z.of_nat (length (day_range s e k)) = (e - s) / Z.pos k + 1.
Proof.
  intros Hse. rewrite day_range_length.
  assert (0 <= (e - s) / Z.pos k) by (apply Z.div_pos; lia). lia.
Qed.

Lemma day_range_last_day (s e : Z) (k : positive) :
  s <= e -> last (day_range s e k) = Some (last_day s e k).
Proof.
  intros Hse. assert (0 <= (e - s) / Z.pos k) by (apply Z.div_pos; lia).
  rewrite last_lookup, day_range_length. unfold day_range.
  change (@map nat Z) with (@fmap list _ nat Z).
  rewrite list_lookup_fmap.
  replace (Z.to_nat ((e - s) / Z.pos k + 1))
    with (S (Z.to_nat ((e - s) / Z.pos k))) by lia.
  cbn [Nat.pred]. rewrite lookup_seq_lt by lia.
  simpl. unfold last_day. f_equal. lia.
Qed.

Lemma getitem_first {A} (x : A) (l : list A) : getitem (x :: l) 0 = Ok x.
Proof. reflexivity. Qed.

Lemma getitem_last {A} (l : list A) (x : A) :
  last l = Some x -> getitem l (-1) = Ok x.
Proof.
  intros Hlast. assert (l <> []) as Hne by (intros ->; discriminate).
  assert (0 < length l)%nat by (destruct l; [done | simpl; lia]).
  unfold getitem, norm_index. settle_comparisons. cbn [andb bind].
  rewrite last_lookup in Hlast.
  replace (Z.to_nat (Z.of_nat (length l) + -1)) with (Nat.pred (length l)) by lia.
  by rewrite Hlast.
Qed.

End DayRange.

(** X17: for a start day no later than the end day, both within the range
    of pandas' timestamps, no periods count and a [freq] of [k] whole days
    that pandas' 64-bit arithmetic covers, [date_range] returns
    [(end - start) / k + 1] days, beginning with the start day; its last day
    is the last step of [k] days from the start that is not after the end
    day: the end day itself with the daily default, and up to [k - 1] days
    before it otherwise. *)
Theorem date_range_last (s e : Z) (k : positive) :
  s <= e ->
  ts_in_bounds s = true -> ts_in_bounds e = true ->
  stride_fits k = true -> arange_fits s e k = true ->
  exists l,
    date_range (mkparams s e None (FreqDays k)) = Ok l
    /\ Z.of_nat (length l) = (e - s) / Z.pos k + 1
    /\ head l = Some s
    /\ last l = Some (last_day s e k)
    /\ e - Z.pos k < last_day s e k <= e
    /\ last_day s e 1 = e.
Proof.
  intros Hse Hs He Hk Hfit. exists (day_range s e k). split.
  { unfold date_range, pd_date_range. cbn [dr_freq dr_periods dr_start dr_end].
    rewrite Hk, !timestamp_in_bounds by done. cbn [bind]. by rewrite Hfit. }
  split; [by apply day_range_count |]. split; [by apply day_range_head |].
  split; [by apply day_range_last_day |]. unfold last_day.
  split; [| rewrite Z.div_1_r; lia].
  pose proof (Z.div_mod (e - s) (Z.pos k)) as Hdiv.
  pose proof (Z.mod_pos_bound (e - s) (Z.pos k)) as Hmod.
  lia.
Qed.

Lemma date_range_last_witness :
  exists l,
    date_range (mkparams 736481 736510 None (FreqDays 7)) = Ok l
    /\ Z.of_nat (length l) = 5 /\ last l = Some 736509.
Proof.
  destruct (date_range_last 736481 736510 7)
    as [l [Hrun [Hcount [_ [Hlast _]]]]]; [lia | reflexivity .. |].
  exists l. split; [exact Hrun |]. split; [exact Hcount | exact Hlast].
Defined.

(** ** Properties of [get_seasonal_info] and [plot_data] *)

Section SeasonalInfo.

Import Calendar.

Implicit Types (df : DataFrame) (p : season_params) (y : Z).

Lemma stats_is_record (arr : list R) : stats arr = Ok (stats_record arr).
Proof. destruct arr; reflexivity. Qed.

Lemma cell_via_cells (j : nat) (rs : list row) :
  map (cell j) rs = map (fun cs => nth j cs 0) (map cells rs).
Proof. by rewrite map_map. Qed.

Lemma filter_none_of (P : row -> Prop) `{!forall r, Decision (P r)} (rs : list row) :
  Forall (fun r => ~ P r) rs -> filter P rs = [].
Proof.
  induction 1 as [| r rs Hr _ IH]; [done |]. by rewrite filter_cons_False.
Qed.

Lemma od_get_map {V} (f : Z -> V) (ys : list Z) y :
  y ∈ ys -> od_get (map (fun y => (y, f y)) ys) y = Ok (f y).
Proof.
  induction ys as [| y0 ys IH]; intros Hin; [by apply elem_of_nil in Hin |].
  simpl. destruct (decide (y0 = y)) as [-> | Hne]; [done |].
  apply elem_of_cons in Hin as [-> | Hin]; [done | by apply IH].
Qed.

Lemma od_get_raises {K V} `{EqDecision K} (d : list (K * V)) (k : K) (e : exn) :
  od_get d k = Raise e -> e = KeyError.
Proof.
  induction d as [| [k' v] d IH]; simpl; [congruence |].
  destruct (decide (k' = k)); [discriminate | exact IH].
Qed.

Lemma od_get_NoDup {V} (d : list (Z * V)) (k : Z) (v : V) :
  NoDup (map fst d) -> (k, v) ∈ d -> od_get d k = Ok v.
Proof.
  induction d as [| [k' v'] d IH]; intros Hnd Hin; [by apply elem_of_nil in Hin |].
  simpl in *. apply NoDup_cons in Hnd as [Hfresh Hnd].
  apply elem_of_cons in Hin as [[= -> ->] | Hin].
  - by destruct (decide (k' = k')).
  - destruct (decide (k' = k)) as [-> | Hne]; [| by apply IH].
    exfalso. apply Hfresh.
    change (map fst d) with (fst <$> d). apply list_elem_of_fmap.
    by exists (k, v).
Qed.

Lemma seasons_kw_ranges df p (k : positive) (ys : list Z) :
  sp_periods p = None ->
  default (FreqDays 1) (sp_freq p) = FreqDays k -> stride_fits k = true ->
  years df = Ok ys ->
  Forall (season_ok (sp_start_mon p) (sp_start_day p)
            (sp_end_mon p) (sp_end_day p) k) ys ->
  seasons_kw df p
  = Ok (map (fun y => (y, day_range (ymd2ord y (sp_start_mon p) (sp_start_day p))
                            (ymd2ord y (sp_end_mon p) (sp_end_day p)) k)) ys).
Proof.
  intros Hper Hfreq Hk Hys Hvalid. unfold seasons_kw, seasons.
  rewrite Hys, Hper, Hfreq. cbn [bind].
  apply mapM_ok. eapply Forall_impl; [exact Hvalid |].
  intros y Hy. by apply season_of_range.
Qed.

(** One year of [get_seasonal_info], when its season is not empty. *)
Lemma seasonal_stats_closed df p (k : positive) (ss : list (Z * list Z)) y
    (field : string) (jd jm jf : nat) :
  column_pos (columns df) "dates" = Some jd ->
  column_pos (columns df) (default "qa" (sp_mask_field p)) = Some jm ->
  sp_field p = Some field -> column_pos (columns df) field = Some jf ->
  od_get ss y = Ok (day_range (ymd2ord y (sp_start_mon p) (sp_start_day p))
                      (ymd2ord y (sp_end_mon p) (sp_end_day p)) k) ->
  ymd2ord y (sp_start_mon p) (sp_start_day p)
    <= ymd2ord y (sp_end_mon p) (sp_end_day p) ->
  seasonal_stats df p ss y
  = Ok (y, stats_record
             (season_values df jd jm jf (default mask_values (sp_vals p))
                (sp_start_mon p) (sp_start_day p) (sp_end_mon p) (sp_end_day p)
                k y)).
Proof.
  intros Hjd Hjm Hfield Hjf Hss Hord. unfold seasonal_stats.
  rewrite Hss. cbn [bind].
  pose proof (day_range_head _ _ k Hord) as Hhead.
  pose proof (day_range_last_day _ _ k Hord) as Hlast.
  destruct (day_range _ _ _) as [| first rest] eqn:Hrange; [discriminate |].
  injection Hhead as ->. rewrite getitem_first. cbn [bind].
  rewrite (getitem_last _ _ Hlast). cbn [bind].
  rewrite (dates_rows _ _ _ _ _ Hjd). cbn [bind].
  unfold mask_kw. rewrite (mask_rows _ _ _ jm) by exact Hjm. cbn [bind columns rows].
  unfold values_kw, values. rewrite Hfield.
  rewrite (getcol_pos _ _ jf) by exact Hjf. cbn [bind rows].
  rewrite stats_is_record. cbn [bind]. do 3 f_equal.
  rewrite cell_relabel. unfold season_values. cbv zeta.
  rewrite (cell_via_cells jf (filter _ (relabel _ _))).
  rewrite filter_relabel_cells
    by (intros r r' Hc; by rewrite (cell_cells jm r r' Hc)).
  by rewrite list_filter_filter, <- cell_via_cells, map_map.
Qed.

Lemma get_seasonal_info_closed df p (k : positive) (ys : list Z)
    (field : string) (jd jm jf : nat) :
  column_pos (columns df) "dates" = Some jd ->
  column_pos (columns df) (default "qa" (sp_mask_field p)) = Some jm ->
  sp_field p = Some field -> column_pos (columns df) field = Some jf ->
  sp_periods p = None ->
  default (FreqDays 1) (sp_freq p) = FreqDays k -> stride_fits k = true ->
  years df = Ok ys ->
  Forall (fun y => season_ok (sp_start_mon p) (sp_start_day p)
                     (sp_end_mon p) (sp_end_day p) k y
                   /\ ymd2ord y (sp_start_mon p) (sp_start_day p)
                      <= ymd2ord y (sp_end_mon p) (sp_end_day p)) ys ->
  get_seasonal_info df p
  = Ok (map (fun y =>
               (y, stats_record
                     (season_values df jd jm jf (default mask_values (sp_vals p))
                        (sp_start_mon p) (sp_start_day p)
                        (sp_end_mon p) (sp_end_day p) k y))) ys).
Proof.
  intros Hjd Hjm Hfield Hjf Hper Hfreq Hk Hys Hvalid. unfold get_seasonal_info.
  rewrite (seasons_kw_ranges df p k ys Hper Hfreq Hk Hys)
    by (eapply Forall_impl; [exact Hvalid | intros y; simpl; tauto]).
  rewrite Hys. cbn [bind]. apply mapM_ok.
  rewrite Forall_forall in Hvalid. apply Forall_forall. intros y Hy.
  destruct (Hvalid y Hy) as [_ Hord].
  apply (seasonal_stats_closed df p k _ y field jd jm jf); try done.
  by apply (od_get_map (fun y => day_range _ _ _)).
Qed.

End SeasonalInfo.

Section EdgeCases.

Import Calendar.

Lemma day_range_empty (s e : Z) (k : positive) : e < s -> day_range s e k = [].
Proof.
  intros Hlt. unfold day_range.
  assert ((e - s) / Z.pos k < 0) by (apply Z.div_lt_upper_bound; lia).
  by replace (Z.to_nat ((e - s) / Z.pos k + 1)) with 0%nat by lia.
Qed.

Lemma years_no_rows (df : DataFrame) (jd : nat) :
  column_pos (columns df) "dates" = Some jd -> rows df = [] -> years df = Ok [].
Proof.
  intros Hjd Hrows. unfold years. rewrite (getcol_pos _ _ _ Hjd), Hrows. reflexivity.
Qed.

Lemma plot_x_closed (d items : list (Z * list (string * pyval))) (field : string) :
  NoDup (map fst d) -> items ⊆ d ->
  Forall (fun item => exists v, od_get (snd item) field = Ok v) items ->
  plot_x d (map fst items) field = Ok (map fst (kept_points items field)).
Proof.
  intros Hnd. induction items as [| [year record] items IH]; intros Hsub Hall; [done |].
  apply Forall_cons in Hall as [[v Hv] Hall]. simpl in Hv.
  cbn [map fst plot_x kept_points].
  rewrite (od_get_NoDup d year record Hnd) by (apply Hsub; left).
  cbn [bind]. rewrite Hv. cbn [bind].
  rewrite IH; [| intros x Hx; apply Hsub; by right | done]. cbn [bind].
  by destruct (is_none v).
Qed.

Lemma plot_y_closed (items : list (Z * list (string * pyval))) (field : string) :
  Forall (fun item => exists v, od_get (snd item) field = Ok v) items ->
  plot_y items field = Ok (map snd (kept_points items field)).
Proof.
  induction 1 as [| [year record] items [v Hv] _ IH]; [done |]. simpl in Hv.
  cbn [plot_y kept_points]. rewrite Hv, IH. cbn [bind]. by destruct (is_none v).
Qed.

Lemma plot_x_missing (d items : list (Z * list (string * pyval))) (field : string) :
  NoDup (map fst d) -> items ⊆ d ->
  Exists (fun item => od_get (snd item) field = Raise KeyError) items ->
  plot_x d (map fst items) field = Raise KeyError.
Proof.
  intros Hnd. induction items as [| [year record] items IH]; intros Hsub Hex;
    [by apply Exists_nil in Hex |].
  cbn [map fst plot_x].
  rewrite (od_get_NoDup d year record Hnd) by (apply Hsub; left). cbn [bind].
  destruct (od_get record field) as [v | e] eqn:Hv; cbn [bind].
  - apply Exists_cons in Hex as [Hhd | Htl]; [simpl in Hhd; congruence |].
    rewrite IH; [done | intros x Hx; apply Hsub; by right | done].
  - by rewrite (od_get_raises _ _ _ Hv).
Qed.

End EdgeCases.







(** X21: on a mapping whose records all have [field], [plot_data] returns
    two series of the same length: the years whose value under [field] is
    not [None], in the order of the mapping, and those values, year by
    year. If some record lacks [field], it raises [KeyError]. *)
Theorem plot_data_points (d : list (Z * list (string * pyval))) (field : string) :
  NoDup (map fst d) ->
  (Forall (fun item => exists v, od_get (snd item) field = Ok v) d ->
   plot_data d field
   = Ok (map fst (kept_points d field), map snd (kept_points d field))
   /\ Forall (fun point => is_none (snd point) = false
                           /\ exists record, (fst point, record) ∈ d
                                /\ od_get record field = Ok (snd point))
        (kept_points d field))
  /\ (Exists (fun item => od_get (snd item) field = Raise KeyError) d ->
      plot_data d field = Raise KeyError).
Proof.
  intros Hnd. split.
  - intros Hall. split.
    + unfold plot_data. rewrite (plot_x_closed d d field Hnd) by done.
      cbn [bind]. by rewrite plot_y_closed.
    + clear Hnd. induction Hall as [| [year record] items [v Hv] _ IH];
        [constructor |].
      simpl in Hv. cbn [kept_points]. rewrite Hv.
      assert (Forall (fun point => is_none (snd point) = false
                /\ exists record0, (fst point, record0) ∈ (year, record) :: items
                     /\ od_get record0 field = Ok (snd point))
                (kept_points items field)) as Htail.
      { eapply Forall_impl; [exact IH |]. intros point [Hnn [rec [Hin Hget]]].
        split; [done |]. exists rec. split; [by right | done]. }
      destruct (is_none v) eqn:Hnone; [done |]. constructor; [| done].
      split; [done |]. exists record. split; [by left | done].
  - intros Hex. unfold plot_data.
    by rewrite (plot_x_missing d d field Hnd).
Qed.

Lemma plot_data_points_witness :
  plot_data [(2017, [("mean", PyFloat NaN)]); (2016, [("mean", PyNone)])] "mean"
  = Ok ([2017], [PyFloat NaN]).
Proof.
  apply (proj1 (plot_data_points
                  [(2017, [("mean", PyFloat NaN)]); (2016, [("mean", PyNone)])]
                  "mean" ltac:(compute_done))).
  repeat constructor; eexists; reflexivity.
Defined.

(** ** Further properties of [years] and [seasons] *)

Section YearsMore.

Import Calendar.

Lemma filter_not_in_cons (a : Z) (l1 u : list Z) :
  List.filter (fun y => negb (y =? a)) (filter (fun y => y ∉ l1) u)
  = filter (fun y => y ∉ a :: l1) u.
Proof.
  induction u as [| b u IHu]; [done |].
  destruct (decide (b ∈ l1)) as [Hin | Hout].
  - rewrite (filter_cons_False _ b u) by tauto.
    rewrite (filter_cons_False _ b u); [exact IHu |].
    rewrite not_elem_of_cons. tauto.
  - rewrite (filter_cons_True _ b u) by done. cbn [List.filter].
    destruct (Z.eqb_spec b a) as [-> | Hne]; cbn [negb].
    + rewrite (filter_cons_False _ a u); [exact IHu |].
      rewrite not_elem_of_cons. tauto.
    + rewrite (filter_cons_True _ b u) by (by rewrite not_elem_of_cons).
      by rewrite IHu.
Qed.

(** The distinct values of two arrays in a row: those of the first, then
    those of the second that the first does not have. *)
Lemma unique_app (l1 l2 : list Z) :
  unique (l1 ++ l2) = unique l1 ++ filter (fun y => y ∉ l1) (unique l2).
Proof.
  induction l1 as [| a l1 IH].
  - simpl. induction (unique l2) as [| b u IHu]; [done |].
    rewrite filter_cons_True by apply not_elem_of_nil. by f_equal.
  - cbn [app unique]. rewrite IH. f_equal.
    rewrite List.filter_app. f_equal. apply filter_not_in_cons.
Qed.

Lemma mapM_outcome {A B} (f : A -> result B) (l : list A) :
  Forall (fun x => (exists y, f x = Ok y) \/ f x = Raise ValueError) l ->
  ((exists ys, mapM f l = Ok ys) /\ Forall (fun x => exists y, f x = Ok y) l)
  \/ (mapM f l = Raise ValueError /\ Exists (fun x => f x = Raise ValueError) l).
Proof.
  induction 1 as [| x l Hx _ IH]; [left; split; [by exists [] | constructor] |].
  simpl. destruct Hx as [[y Hy] | Hraise].
  - rewrite Hy. cbn [bind]. destruct IH as [[[ys Hys] Hall] | [Hr Hex]].
    + left. rewrite Hys. split; [by eexists | constructor; [by exists y | done]].
    + right. rewrite Hr. split; [done | by right].
  - right. rewrite Hraise. split; [done | by left].
Qed.

Lemma season_of_outcome (sm sd em ed : Z) (periods : option Z) (k : positive) (y : Z) :
  stride_fits k = true ->
  fits_c_int sm = true -> fits_c_int sd = true ->
  fits_c_int em = true -> fits_c_int ed = true ->
  season_in_range sm sd em ed k y ->
  ((exists item, season_of sm sd em ed periods (FreqDays k) y = Ok item)
   /\ periods = None
   /\ check_date_fields y sm sd = true /\ check_date_fields y em ed = true)
  \/ (season_of sm sd em ed periods (FreqDays k) y = Raise ValueError
      /\ (periods <> None
          \/ check_date_fields y sm sd = false \/ check_date_fields y em ed = false)).
Proof.
  intros Hk Hsm Hsd Hem Hed [Hy Hok]. destruct periods as [n |].
  { right. split; [by apply season_of_periods_raises | by left]. }
  destruct (check_date_fields y sm sd) eqn:Hs.
  - destruct (check_date_fields y em ed) eqn:He.
    + left. rewrite (season_of_range _ _ _ _ _ _ Hk (Hok eq_refl eq_refl)).
      split; [by eexists | done].
    + right. split; [| tauto]. unfold season_of.
      rewrite !datetime_fits by done. by rewrite Hs, He.
  - right. split; [| tauto]. unfold season_of.
    rewrite !datetime_fits by done. by rewrite Hs.
Qed.

End YearsMore.

(** X22: [years] lists the distinct years in order of first appearance:
    the years of a table whose rows are those of one table followed by those
    of another are the years of the first, then the years of the second that
    the first does not have. *)
Theorem years_first_appearance (cols : list string) (rs1 rs2 : list row) :
  years (mkdf cols (rs1 ++ rs2))
  = (let* ys1 := years (mkdf cols rs1) in
     let* ys2 := years (mkdf cols rs2) in
     Ok (ys1 ++ filter (fun y => y ∉ ys1) ys2)).
Proof.
  unfold years, getcol. cbn [columns rows].
  destruct (column_pos cols "dates") as [j |]; [| done]. cbn [bind].
  rewrite !map_app, unique_app. do 2 f_equal.
  apply list_filter_iff. intros y. by rewrite unique_elem.
Qed.

(** X23: with a [freq] of [k] whole days, month and day arguments that are
    C integers and, in every year of the table, season dates that pandas
    lists every [k] days if they exist: [seasons] returns exactly when the
    table has no year, or no periods count is given and both dates of the
    season exist in every year of the table; in every other case it raises
    [ValueError]. *)
Theorem seasons_outcome (df : DataFrame) (sm sd em ed : Z) (periods : option Z)
    (k : positive) (ys : list Z) :
  years df = Ok ys ->
  stride_fits k = true ->
  fits_c_int sm = true -> fits_c_int sd = true ->
  fits_c_int em = true -> fits_c_int ed = true ->
  Forall (season_in_range sm sd em ed k) ys ->
  ((exists ss, seasons df sm sd em ed periods (FreqDays k) = Ok ss)
   <-> ys = []
       \/ (periods = None
           /\ Forall (fun y => Calendar.check_date_fields y sm sd = true
                               /\ Calendar.check_date_fields y em ed = true) ys))
  /\ ((exists ss, seasons df sm sd em ed periods (FreqDays k) = Ok ss)
      \/ seasons df sm sd em ed periods (FreqDays k) = Raise ValueError).
Proof.
  intros Hys Hk Hsm Hsd Hem Hed Hrange. unfold seasons. rewrite Hys. cbn [bind].
  assert (Forall (fun y =>
            (exists item, season_of sm sd em ed periods (FreqDays k) y = Ok item)
            \/ season_of sm sd em ed periods (FreqDays k) y = Raise ValueError) ys)
    as Hcases.
  { eapply Forall_impl; [exact Hrange |]. intros y Hy. simpl.
    destruct (season_of_outcome sm sd em ed periods k y Hk Hsm Hsd Hem Hed Hy)
      as [[? _] | [? _]]; tauto. }
  destruct (mapM_outcome _ _ Hcases) as [[[ss Hss] Hall] | [Hraise Hex]].
  - split; [| left; by exists ss]. split; [| intros _; by exists ss].
    intros _. destruct ys as [| y ys]; [by left |]. right.
    assert (Forall (fun y => periods = None
                             /\ Calendar.check_date_fields y sm sd = true
                             /\ Calendar.check_date_fields y em ed = true) (y :: ys))
      as Hgood.
    { eapply Forall_impl; [exact Hall |]. intros y' [item Hitem]. simpl.
      apply season_of_inv in Hitem
        as [k' [_ [? [_ [[[? _] [[? _] _]] _]]]]]. done. }
    split; [by apply Forall_cons in Hgood as [[? _] _] |].
    eapply Forall_impl; [exact Hgood |]. intros y'. simpl. tauto.
  - split; [| by right]. rewrite Hraise. split; [by intros [? ?] |].
    intros [-> | [-> Hvalid]]; [by apply Exists_nil in Hex |].
    exfalso. apply Exists_exists in Hex as [y [Hy Hr]].
    rewrite Forall_forall in Hvalid, Hrange.
    destruct (Hvalid y Hy) as [Hs He]. destruct (Hrange y Hy) as [_ Hok].
    by rewrite (season_of_range _ _ _ _ _ _ Hk (Hok Hs He)) in Hr.
Qed.

Lemma seasons_outcome_witness :
  seasons three_dates 2 29 3 1 None (FreqDays 1) = Raise ValueError.
Proof.
  destruct (proj2 (seasons_outcome three_dates 2 29 3 1 None 1 [2017; 2016]
                     eq_refl eq_refl eq_refl eq_refl eq_refl eq_refl
                     ltac:(repeat (apply List.Forall_cons || apply List.Forall_nil);
                           (split; [reflexivity |]);
                           intros Hs He; repeat split;
                           first [exact Hs | exact He | vm_compute; reflexivity])))
    as [[ss Hss] | Hraise]; [discriminate | exact Hraise].
Defined.
